(** * zipdoc: encode/decode filter for zipped document formats

    A shallow embedding of [zipdoc.py].  The two filters [zipdocencode] and
    [zipdocdecode] re-pack a ZIP container member by member; members whose
    name ends in [.xml] additionally go through a byte substitution
    ([bytes.replace]) that breaks lines between adjacent tags, or undoes it.

    Layout: Python built-ins used by the filters, the [zipfile] interface,
    the two filters, a small executable container format that implements the
    interface, and then the properties. *)

From Stdlib Require Import List ZArith Lia Bool Arith.
From Stdlib Require Import Strings.Byte Strings.Ascii Strings.String.
Import ListNotations.

Local Open Scope list_scope.

(* ================================================================== *)
(** ** Python built-ins *)

Module Py.

(** A Python [bytes] object. *)
Definition bytes := list byte.

(** [s.startswith(p)] on bytes. *)
Fixpoint startswith (p s : bytes) : bool :=
  match p, s with
  | [], _ => true
  | _ :: _, [] => false
  | a :: p', c :: s' => Byte.eqb a c && startswith p' s'
  end.

(** [s[n:]], written so that the result is visibly a piece of [s]. *)
Fixpoint drop (n : nat) (s : bytes) {struct s} : bytes :=
  match n, s with
  | S k, _ :: s' => drop k s'
  | _, _ => s
  end.

(** [p in s]: the pattern occurs somewhere in [s]. *)
Fixpoint occurs (p s : bytes) : bool :=
  startswith p s ||
  match s with
  | [] => false
  | _ :: s' => occurs p s'
  end.

(** [s.replace(old, new)] for a non-empty [old]: scan from the left; at an
    occurrence of [old] emit [new] and resume after the occurrence, otherwise
    copy one byte. *)
Fixpoint replace_scan (old new s : bytes) {struct s} : bytes :=
  match s with
  | [] => []
  | c :: s' =>
      if startswith old s
      then new ++ replace_scan old new (drop (List.length old - 1) s')
      else c :: replace_scan old new s'
  end.

(** [s.replace(old, new)].  With an empty [old], Python puts [new] before
    every byte and at the end. *)
Definition replace (old new s : bytes) : bytes :=
  match old with
  | [] => new ++ flat_map (fun c => c :: new) s
  | _ :: _ => replace_scan old new s
  end.

(** A Python [str], restricted to the characters a Rocq [string] holds. *)
Definition str := string.

(** One character of [str.lower()]: the letters A to Z are folded, every
    other character of the model is left alone. *)
Definition lower_char (c : ascii) : ascii :=
  let n := nat_of_ascii c in
  if (65 <=? n) && (n <=? 90) then ascii_of_nat (n + 32) else c.

(** [s.lower()]. *)
Fixpoint lower (s : str) : str :=
  match s with
  | EmptyString => EmptyString
  | String c s' => String (lower_char c) (lower s')
  end.

(** [s.endswith(suffix)] on str. *)
Definition endswith (s suffix : str) : bool :=
  let n := String.length s in
  let k := String.length suffix in
  (k <=? n) && String.eqb (substring (n - k) k s) suffix.

End Py.

Import Py.

(* ================================================================== *)
(** ** The XML line substitution *)

Definition GT : byte := ">"%byte.
Definition LT : byte := "<"%byte.
Definition CR : byte := x0d.
Definition LF : byte := x0a.
Definition SP : byte := " "%byte.

(** [b"><"] *)
Definition tags_joined : bytes := [GT; LT].

(** [b">\r\n <"] *)
Definition tags_split : bytes := [GT; CR; LF; SP; LT].

(** [archive_member.replace(b"><", b">\r\n <")], the argument of [writestr]
    in [zipdocencode]. *)
Definition xml_split (data : bytes) : bytes :=
  replace tags_joined tags_split data.

(** [archive_member.replace(b">\r\n <", b"><")], the argument of [writestr]
    in [zipdocdecode]. *)
Definition xml_join (data : bytes) : bytes :=
  replace tags_split tags_joined data.

(** [archive_member_info.filename.lower().endswith('.xml')] *)
Definition is_xml_name (filename : str) : bool :=
  endswith (lower filename) ".xml"%string.

(* ================================================================== *)
(** ** The [zipfile] interface *)

(** Exceptions the filters can meet: [zipfile.BadZipfile]; everything else
    the archive library raises while a member is read (an encrypted entry,
    an unsupported compression method, a failed CRC check); and Python's
    [TypeError]. *)
Inductive exn : Type :=
| BadZipfile
| ReadError
| TypeError.

(** The outcome of a call that may raise. *)
Inductive result (A : Type) : Type :=
| Return (a : A)
| Raise (e : exn).

Arguments Return {A} a.
Arguments Raise {A} e.

Definition bind {A B : Type} (m : result A) (k : A -> result B) : result B :=
  match m with
  | Return a => k a
  | Raise e => Raise e
  end.

Notation "x <- m ;; k" := (bind m (fun x => k))
  (at level 61, m at next level, right associativity).

Definition ZIP_STORED : Z := 0.
Definition ZIP_DEFLATED : Z := 8.

Definition ZIP_LZMA : Z := 14.

(** A [zipfile.ZipInfo]: the two attributes the filters touch, and the
    attributes of the entry that the filters carry along and [writestr]
    reads or rewrites.  The checksum and the compressed size, which the
    library computes from the content when it writes, are left out. *)
Record ZipInfo : Type := mkZipInfo {
  filename : str;
  compress_type : Z;
  external_attr : Z;
  comment : bytes;
  header_offset : Z;
  flag_bits : Z;
  file_size : Z
}.

(** [info.compress_type = ct] *)
Definition set_compress_type (info : ZipInfo) (ct : Z) : ZipInfo :=
  {| filename := filename info;
     compress_type := ct;
     external_attr := external_attr info;
     comment := comment info;
     header_offset := header_offset info;
     flag_bits := flag_bits info;
     file_size := file_size info |}.

(** The [ZipInfo] as [writestr(zinfo, data)] leaves it, for an archive
    written to a seekable buffer whose next entry starts at [offset]:
    [zinfo.file_size = len(data)], then in [_open_to_write]
    [zinfo.flag_bits = 0x00], with [_MASK_COMPRESS_OPTION_1] for LZMA;
    [if not zinfo.external_attr: zinfo.external_attr = 0o600 << 16];
    [zinfo.header_offset = self.fp.tell()]. *)
Definition writestr_info (offset : Z) (zinfo : ZipInfo) (data : bytes)
  : ZipInfo :=
  {| filename := filename zinfo;
     compress_type := compress_type zinfo;
     external_attr :=
       if (external_attr zinfo =? 0)%Z then Z.shiftl 384 16
       else external_attr zinfo;
     comment := comment zinfo;
     header_offset := offset;
     flag_bits := if (compress_type zinfo =? ZIP_LZMA)%Z then 2%Z else 0%Z;
     file_size := Z.of_nat (List.length data) |}.

(** A member as it sits in an archive: its [ZipInfo] and its content. *)
Definition member : Type := ZipInfo * bytes.

Definition member_name (m : member) : str := filename (fst m).
Definition member_data (m : member) : bytes := snd m.

(** A [ZipFile] opened with mode ["w"]: the default compression it was
    created with and the entries written so far, oldest first. *)
Record ZipWriter : Type := mkZipWriter {
  compression : Z;
  filelist : list member
}.

(** [zipfile.ZipFile(outfile, "w", compression)] *)
Definition ZipFile_w (compression : Z) : ZipWriter :=
  {| compression := compression; filelist := [] |}.

(** What the filters need from the archive library. *)
Class ZipLib : Type := {
  (** [zipfile.ZipFile(BytesIO(s), "r").infolist()] *)
  zf_infolist : bytes -> result (list ZipInfo);
  (** [zipfile.ZipFile(BytesIO(s), "r").read(info)] *)
  zf_read : bytes -> ZipInfo -> result bytes;
  (** [archive.close(); outfile.getvalue()] for a ["w"] archive. *)
  zf_getvalue : ZipWriter -> bytes;
  (** [archive.fp.tell()] where the next entry of a ["w"] archive starts. *)
  zf_tell : ZipWriter -> Z
}.

Section Archive.
Context {L : ZipLib}.

(** [archive.writestr(zinfo, data)] with a [ZipInfo] as first argument: the
    library rewrites the [ZipInfo] and appends the entry under it; the
    default compression of the archive is not consulted. *)
Definition writestr (archive : ZipWriter) (zinfo : ZipInfo) (data : bytes)
  : ZipWriter :=
  {| compression := compression archive;
     filelist := filelist archive
                 ++ [(writestr_info (zf_tell archive) zinfo data, data)] |}.

(** Read the members listed by [infos] out of the buffer [s], in order. *)
Fixpoint read_all (s : bytes) (infos : list ZipInfo) : result (list member) :=
  match infos with
  | [] => Return []
  | info :: rest =>
      data <- zf_read s info ;;
      ms <- read_all s rest ;;
      Return ((info, data) :: ms)
  end.

(** The members of the archive held in [s], as the library reads them. *)
Definition members_of (s : bytes) : result (list member) :=
  infos <- zf_infolist s ;;
  read_all s infos.

End Archive.

(** Compression methods the library can write. *)
Definition writable (ct : Z) : Prop :=
  ct = ZIP_STORED \/ ct = ZIP_DEFLATED.

(** Two entries agree on name, compression method and content. *)
Definition same_member (r w : member) : Prop :=
  filename (fst r) = filename (fst w) /\
  compress_type (fst r) = compress_type (fst w) /\
  snd r = snd w.

(** The contract of the library: an archive written with writable methods
    reads back with the same entries, in the order they were written. *)
Definition ZipLaws (L : ZipLib) : Prop :=
  forall w : ZipWriter,
    Forall (fun m => writable (compress_type (fst m))) (filelist w) ->
    exists ms, members_of (zf_getvalue w) = Return ms /\
               Forall2 same_member ms (filelist w).

(* ================================================================== *)
(** ** The Mercurial side: messages *)

(** The values the message expressions work on: a Python [str] (the
    literals of [zipdoc.py]) or a Python [bytes] (what Mercurial passes as
    [filename]). *)
Inductive pyval : Type :=
| PyStr (s : str)
| PyBytes (b : bytes).

(** [a + b]: Python concatenates a [str] with a [str] and a [bytes] with a
    [bytes]; mixing the two raises [TypeError]. *)
Definition py_add (a b : pyval) : result pyval :=
  match a, b with
  | PyStr x, PyStr y => Return (PyStr (x ++ y)%string)
  | PyBytes x, PyBytes y => Return (PyBytes (x ++ y))
  | _, _ => Raise TypeError
  end.

(** An entry of the [ui] object's output: [ui.note] or [ui.debug], with the
    bytes Mercurial writes. *)
Inductive event : Type :=
| Note (msg : bytes)
| Debug (msg : bytes).

Local Open Scope string_scope.

Definition nl : str := String (ascii_of_nat 10) EmptyString.

(** [mercurial.i18n._] as Mercurial runs it without [HGPLAIN]: the message
    comes back as bytes; the messages of [zipdoc.py] have no entry in
    Mercurial's catalogues, so the text is unchanged. *)
Definition gettext (message : pyval) : bytes :=
  match message with
  | PyStr s => list_byte_of_string s
  | PyBytes b => b
  end.

(** [template % arg] on bytes, for a template with one [%s]. *)
Fixpoint percent (template arg : bytes) : bytes :=
  match template with
  | [] => []
  | c :: rest =>
      if Byte.eqb c "%"%byte && startswith ["s"%byte] rest
      then (arg ++ drop 1 rest)%list
      else c :: percent rest arg
  end.

(* ================================================================== *)
(** ** The filters *)

Section Filters.
Context {L : ZipLib}.

(** The [for] loop of [zipdocencode]. *)
Fixpoint encode_loop (s : bytes) (archive_member_infos : list ZipInfo)
    (uncompressed : ZipWriter) : result ZipWriter :=
  match archive_member_infos with
  | [] => Return uncompressed
  | archive_member_info :: rest =>
      archive_member <- zf_read s archive_member_info ;;
      let archive_member_info := set_compress_type archive_member_info 0 in
      let uncompressed :=
        if is_xml_name (filename archive_member_info)
        then writestr uncompressed archive_member_info
               (replace tags_joined tags_split archive_member)
        else writestr uncompressed archive_member_info archive_member in
      encode_loop s rest uncompressed
  end.

(** [zipdocencode(s, cmd, ui=..., filename=...)], with the [filename] a
    bytes object as Mercurial passes it: the lines handed to [ui] and the
    value returned or the exception raised. *)
Definition zipdocencode (s : bytes) (cmd : bytes) (filename : bytes)
  : list event * result bytes :=
  match zf_infolist s with
  | Raise BadZipfile =>
      match
        (m1 <- py_add (PyStr "zipdoc: Skipped encoding '")
                      (PyBytes filename) ;;
         m2 <- py_add m1
                 (PyStr "' due to bad ZIP archive. The file is not a ZIP") ;;
         py_add m2
           (PyStr (" (might be a link) or the archive is broken." ++ nl)))
      with
      | Raise e => ([], Raise e)
      | Return message => ([Note (gettext message)], Return s)
      end
  | Raise e => ([], Raise e)
  | Return archive_member_infos =>
      match encode_loop s archive_member_infos (ZipFile_w ZIP_STORED) with
      | Raise e => ([], Raise e)
      | Return uncompressed =>
          let outs := zf_getvalue uncompressed in
          ([Debug (percent (gettext (PyStr ("zipdoc: Encoded %s" ++ nl)))
                           filename)],
           Return outs)
      end
  end.

(** The [for] loop of [zipdocdecode]. *)
Fixpoint decode_loop (s : bytes) (archive_member_infos : list ZipInfo)
    (zipped : ZipWriter) : result ZipWriter :=
  match archive_member_infos with
  | [] => Return zipped
  | archive_member_info :: rest =>
      archive_member <- zf_read s archive_member_info ;;
      let archive_member_info :=
        set_compress_type archive_member_info ZIP_DEFLATED in
      let zipped :=
        if is_xml_name (filename archive_member_info)
        then writestr zipped archive_member_info
               (replace tags_split tags_joined archive_member)
        else writestr zipped archive_member_info archive_member in
      decode_loop s rest zipped
  end.

(** [zipdocdecode(s, cmd, ui=..., filename=...)] *)
Definition zipdocdecode (s : bytes) (cmd : bytes) (filename : bytes)
  : list event * result bytes :=
  match zf_infolist s with
  | Raise BadZipfile =>
      ([Note (percent
                (gettext
                   (PyStr ("zipdoc: Skipped decoding '%s"
                           ++ "' due to bad ZIP archive. The file is not a ZIP"
                           ++ " (might be a link) or the archive is broken."
                           ++ nl)))
                filename)],
       Return s)
  | Raise e => ([], Raise e)
  | Return archive_member_infos =>
      match decode_loop s archive_member_infos (ZipFile_w ZIP_DEFLATED) with
      | Raise e => ([], Raise e)
      | Return zipped =>
          let outs := zf_getvalue zipped in
          ([Debug (percent (gettext (PyStr ("zipdoc: Decoded %s" ++ nl)))
                           filename)],
           Return outs)
      end
  end.

(** The output archive of [zipdocencode] when its loop has ended, before it
    is closed. *)
Definition encode_writer (s : bytes) : result ZipWriter :=
  archive_member_infos <- zf_infolist s ;;
  encode_loop s archive_member_infos (ZipFile_w ZIP_STORED).

(** The output archive of [zipdocdecode] when its loop has ended. *)
Definition decode_writer (s : bytes) : result ZipWriter :=
  archive_member_infos <- zf_infolist s ;;
  decode_loop s archive_member_infos (ZipFile_w ZIP_DEFLATED).

End Filters.

Local Close Scope string_scope.

(* ================================================================== *)
(** ** Registration with Mercurial *)

(** A data filter as Mercurial calls it:
    [fn(s, cmd, ui=..., repo=..., filename=...)]. *)
Definition datafilter : Type :=
  bytes -> bytes -> bytes -> list event * result bytes.

(** [a == b] on bytes. *)
Fixpoint bytes_eqb (a b : bytes) : bool :=
  match a, b with
  | [], [] => true
  | x :: a', y :: b' => Byte.eqb x y && bytes_eqb a' b'
  | _, _ => false
  end.

(** A Python dict with bytes keys: its items in insertion order. *)
Definition dict (V : Type) : Type := list (bytes * V).

(** [d.get(k)] *)
Fixpoint dict_get {V : Type} (d : dict V) (k : bytes) : option V :=
  match d with
  | [] => None
  | (k', v) :: rest => if bytes_eqb k' k then Some v else dict_get rest k
  end.

(** [d[k] = v]: a key already present keeps its place. *)
Fixpoint dict_set {V : Type} (d : dict V) (k : bytes) (v : V) : dict V :=
  match d with
  | [] => [(k, v)]
  | (k', v') :: rest =>
      if bytes_eqb k' k then (k', v) :: rest
      else (k', v') :: dict_set rest k v
  end.

(** The part of a Mercurial repository object that [reposetup] touches:
    what [repo.local()] answers, and the table that [repo.adddatafilter]
    fills. *)
Record localrepo : Type := mkRepo {
  local : bool;
  datafilters : dict datafilter
}.

(** [repo.adddatafilter(name, fn)] *)
Definition adddatafilter (repo : localrepo) (name : bytes) (fn : datafilter)
  : localrepo :=
  {| local := local repo;
     datafilters := dict_set (datafilters repo) name fn |}.

Section Registration.
Context {L : ZipLib}.

(** [_filters] *)
Definition _filters : dict datafilter :=
  [ (list_byte_of_string "zipdocencode", zipdocencode);
    (list_byte_of_string "zipdocdecode", zipdocdecode) ].

(** [reposetup(ui, repo)]: the repository as the call leaves it. *)
Definition reposetup (ui : list event) (repo : localrepo) : localrepo :=
  if negb (local repo) then repo
  else fold_left (fun repo item => adddatafilter repo (fst item) (snd item))
                 _filters repo.

End Registration.

(* ================================================================== *)
(** ** What the loops write, member by member *)

(** The entry a loop hands to [writestr] for one member of the input: the
    member's own [ZipInfo] with the compression method overwritten, and the
    content, passed through [subst] when the name is an XML name. *)
Definition repack_entry (ct : Z) (subst : bytes -> bytes) (m : member)
  : member :=
  (set_compress_type (fst m) ct,
   if is_xml_name (filename (fst m)) then subst (snd m) else snd m).

Definition encode_entry : member -> member :=
  repack_entry ZIP_STORED xml_split.

Definition decode_entry : member -> member :=
  repack_entry ZIP_DEFLATED xml_join.

(** [writestr] for each entry in turn. *)
Definition write_all {L : ZipLib} (archive : ZipWriter) (es : list member)
  : ZipWriter :=
  fold_left (fun archive e => writestr archive (fst e) (snd e)) es archive.

(** The entry [w] of an output archive is the entry [e] as [writestr] has
    written it at some position. *)
Definition written_as (w e : member) : Prop :=
  exists offset, w = (writestr_info offset (fst e) (snd e), snd e).

(** Two buffers hold archives with the same members: both read, and entry
    by entry the names, compression methods and contents agree. *)
Definition same_archive {L : ZipLib} (s1 s2 : bytes) : Prop :=
  exists ms1 ms2,
    members_of s1 = Return ms1 /\
    members_of s2 = Return ms2 /\
    Forall2 same_member ms1 ms2.

(** [sep.join(chunks)] on bytes. *)
Fixpoint join_with (sep : bytes) (chunks : list bytes) : bytes :=
  match chunks with
  | [] => []
  | [c] => c
  | c :: rest => c ++ sep ++ join_with sep rest
  end.

(** The words of the specification, "every occurrence of [old] is replaced
    by [new]": [s] is cut at its occurrences of [old] into pieces that hold
    no further occurrence, and [t] is the same pieces with [new] between
    them. *)
Definition replaced_everywhere (old new s t : bytes) : Prop :=
  exists chunks,
    s = join_with old chunks /\
    t = join_with new chunks /\
    Forall (fun c => ~ (exists l r, c = l ++ old ++ r)) chunks.

(* ================================================================== *)
(** ** An executable container format

    A small archive format that implements [ZipLib], so that the filters can
    be run on concrete buffers.  A buffer is the two-byte signature, the
    number of entries, and the entries one after the other; counts are
    written in unary, integers bit by bit, byte strings with their length in
    front.  Positions in an archive are counted in entries. *)

Module Box.

Definition magic : bytes := ["P"; "K"]%byte.

Fixpoint put_nat (n : nat) : bytes :=
  match n with
  | O => [x00]
  | S k => x01 :: put_nat k
  end.

Fixpoint get_nat (s : bytes) : option (nat * bytes) :=
  match s with
  | [] => None
  | c :: r =>
      if Byte.eqb c x00 then Some (O, r)
      else if Byte.eqb c x01 then
        match get_nat r with
        | Some (n, r') => Some (S n, r')
        | None => None
        end
      else None
  end.

Fixpoint put_pos (p : positive) : bytes :=
  match p with
  | xH => [x02]
  | xO q => x00 :: put_pos q
  | xI q => x01 :: put_pos q
  end.

Fixpoint get_pos (s : bytes) : option (positive * bytes) :=
  match s with
  | [] => None
  | c :: r =>
      if Byte.eqb c x02 then Some (xH, r)
      else if Byte.eqb c x00 then
        match get_pos r with
        | Some (q, r') => Some (xO q, r')
        | None => None
        end
      else if Byte.eqb c x01 then
        match get_pos r with
        | Some (q, r') => Some (xI q, r')
        | None => None
        end
      else None
  end.

Definition put_Z (z : Z) : bytes :=
  match z with
  | Z0 => [x00]
  | Zpos p => x01 :: put_pos p
  | Zneg p => x02 :: put_pos p
  end.

Definition get_Z (s : bytes) : option (Z * bytes) :=
  match s with
  | [] => None
  | c :: r =>
      if Byte.eqb c x00 then Some (Z0, r)
      else
        match get_pos r with
        | Some (p, r') =>
            if Byte.eqb c x01 then Some (Zpos p, r')
            else if Byte.eqb c x02 then Some (Zneg p, r')
            else None
        | None => None
        end
  end.

Definition put_bytes (b : bytes) : bytes :=
  put_nat (List.length b) ++ b.

Definition get_bytes (s : bytes) : option (bytes * bytes) :=
  match get_nat s with
  | Some (n, r) =>
      if n <=? List.length r then Some (firstn n r, skipn n r) else None
  | None => None
  end.

Definition put_member (m : member) : bytes :=
  put_bytes (list_byte_of_string (filename (fst m)))
  ++ put_Z (compress_type (fst m))
  ++ put_Z (external_attr (fst m))
  ++ put_bytes (comment (fst m))
  ++ put_Z (flag_bits (fst m))
  ++ put_bytes (snd m).

(** The entry at the head of [s]; [offset] is its position in the archive. *)
Definition get_member (offset : Z) (s : bytes) : option (member * bytes) :=
  match get_bytes s with
  | None => None
  | Some (name, s1) =>
  match get_Z s1 with
  | None => None
  | Some (ct, s2) =>
  match get_Z s2 with
  | None => None
  | Some (attr, s3) =>
  match get_bytes s3 with
  | None => None
  | Some (cmt, s4) =>
  match get_Z s4 with
  | None => None
  | Some (flags, s5) =>
  match get_bytes s5 with
  | None => None
  | Some (data, s6) =>
      Some ((mkZipInfo (string_of_list_byte name) ct attr cmt offset flags
                       (Z.of_nat (List.length data)), data), s6)
  end end end end end end.

Fixpoint get_members (n : nat) (offset : Z) (s : bytes)
  : option (list member) :=
  match n with
  | O => match s with [] => Some [] | _ :: _ => None end
  | S k =>
      match get_member offset s with
      | None => None
      | Some (m, r) =>
          match get_members k (offset + 1)%Z r with
          | None => None
          | Some ms => Some (m :: ms)
          end
      end
  end.

Definition parse (s : bytes) : option (list member) :=
  if startswith magic s then
    match get_nat (drop 2 s) with
    | Some (n, r) => get_members n 0%Z r
    | None => None
    end
  else None.

Definition pack (w : ZipWriter) : bytes :=
  magic ++ put_nat (List.length (filelist w))
        ++ flat_map put_member (filelist w).

Definition readable (ct : Z) : bool :=
  (ct =? ZIP_STORED)%Z || (ct =? ZIP_DEFLATED)%Z.

Definition infolist (s : bytes) : result (list ZipInfo) :=
  match parse s with
  | Some ms => Return (map fst ms)
  | None => Raise BadZipfile
  end.

(** An entry stored with a method other than STORED or DEFLATED cannot be
    read. *)
Definition read (s : bytes) (info : ZipInfo) : result bytes :=
  match parse s with
  | None => Raise BadZipfile
  | Some ms =>
      match nth_error ms (Z.to_nat (header_offset info)) with
      | None => Raise BadZipfile
      | Some m =>
          if readable (compress_type (fst m)) then Return (snd m)
          else Raise ReadError
      end
  end.

(** The next entry of an archive takes the position after the last. *)
Definition tell (w : ZipWriter) : Z := Z.of_nat (List.length (filelist w)).

Definition lib : ZipLib :=
  {| zf_infolist := infolist; zf_read := read; zf_getvalue := pack;
     zf_tell := tell |}.

(** The entries of a parsed archive carry their position and the size of
    their content. *)
Fixpoint renumber (offset : Z) (ms : list member) : list member :=
  match ms with
  | [] => []
  | m :: rest =>
      (mkZipInfo (filename (fst m)) (compress_type (fst m))
                 (external_attr (fst m)) (comment (fst m)) offset
                 (flag_bits (fst m)) (Z.of_nat (List.length (snd m))),
       snd m)
      :: renumber (offset + 1)%Z rest
  end.

End Box.

(* ================================================================== *)
(** ** Sample data *)

Module Sample.

Definition b (s : string) : bytes := list_byte_of_string s.

(** [b"<a><b/></a>"] and [b"<a>\r\n <b/>\r\n </a>"] *)
Definition doc_joined : bytes := b "<a><b/></a>".
Definition doc_split : bytes :=
  b "<a>" ++ [CR; LF] ++ b " <b/>" ++ [CR; LF] ++ b " </a>".

(** Binary content in which the bytes of [b"><"] happen to occur. *)
Definition thumbnail : bytes := [xff; xd8; x3e; x3c; x00; xd9].

Definition info (name : string) (ct : Z) : ZipInfo :=
  mkZipInfo name ct 0 [] 0 0 0.

(** An entry as [writestr] leaves it: permissions [0o600 << 16]. *)
Definition written (name : string) (ct : Z) : ZipInfo :=
  mkZipInfo name ct 25165824 [] 0 0 0.

(** A document as an application saves it: deflated members. *)
Definition docx_entries : list member :=
  [ (info "word/document.xml" ZIP_DEFLATED, doc_joined);
    (info "docProps/thumbnail.jpeg" ZIP_DEFLATED, thumbnail) ].

Definition docx : bytes := Box.pack (mkZipWriter ZIP_DEFLATED docx_entries).

(** The same document as the encode filter stores it. *)
Definition stored_entries : list member :=
  [ (written "word/document.xml" ZIP_STORED, doc_split);
    (written "docProps/thumbnail.jpeg" ZIP_STORED, thumbnail) ].

Definition stored : bytes := Box.pack (mkZipWriter ZIP_STORED stored_entries).

(** And as the decode filter writes it to the working directory. *)
Definition zipped_entries : list member :=
  [ (written "word/document.xml" ZIP_DEFLATED, doc_joined);
    (written "docProps/thumbnail.jpeg" ZIP_DEFLATED, thumbnail) ].

Definition zipped : bytes :=
  Box.pack (mkZipWriter ZIP_DEFLATED zipped_entries).

(** An archive without XML members, one name used twice. *)
Definition images_entries : list member :=
  [ (info "image.png" ZIP_DEFLATED, thumbnail);
    (info "notes.txt" ZIP_STORED, doc_joined);
    (info "image.png" ZIP_DEFLATED, b "second") ].

Definition images : bytes :=
  Box.pack (mkZipWriter ZIP_DEFLATED images_entries).

(** An archive with a member stored under a method that cannot be read. *)
Definition odd : bytes :=
  Box.pack (mkZipWriter ZIP_STORED [ (info "a.xml" 99, doc_joined) ]).

(** A local repository in which the encode name is taken by another
    filter and one more filter is registered. *)
Definition repo : localrepo :=
  mkRepo true
    [ (b "zipdocencode", @zipdocdecode Box.lib);
      (b "cleverencode:", @zipdocdecode Box.lib) ].

(** A symbolic link's target text: not an archive. *)
Definition link : bytes := b "../shared/template.docx".

End Sample.

(* ================================================================== *)
(** * Properties *)

(** ** The filters at work *)

Example replace_document :
  replace tags_joined tags_split Sample.doc_joined = Sample.doc_split.
Proof. reflexivity. Qed.

Example replace_back :
  replace tags_split tags_joined Sample.doc_split = Sample.doc_joined.
Proof. reflexivity. Qed.

Example replace_empty_pattern :
  replace [] [SP] [GT; LT] = [SP; GT; SP; LT; SP].
Proof. reflexivity. Qed.

Example xml_names :
  map is_xml_name
    ["word/document.xml"; "META.XML"; "a.Xml"; ".xml"; "xml"; "a.xmlx";
     "image.png"]%string
  = [true; true; true; true; false; false; false].
Proof. reflexivity. Qed.

Example encode_docx :
  @zipdocencode Box.lib Sample.docx [] (Sample.b "report.docx")
  = ([Debug (Sample.b "zipdoc: Encoded report.docx" ++ [LF])],
     Return Sample.stored).
Proof. vm_compute. reflexivity. Qed.

Example decode_stored :
  @zipdocdecode Box.lib Sample.stored [] (Sample.b "report.docx")
  = ([Debug (Sample.b "zipdoc: Decoded report.docx" ++ [LF])],
     Return Sample.zipped).
Proof. vm_compute. reflexivity. Qed.

Example decode_link :
  @zipdocdecode Box.lib Sample.link [] (Sample.b "report.docx")
  = ([Note (Sample.b ("zipdoc: Skipped decoding 'report.docx' due to bad ZIP"
                      ++ " archive. The file is not a ZIP (might be a link)"
                      ++ " or the archive is broken.") ++ [LF])],
     Return Sample.link).
Proof. vm_compute. reflexivity. Qed.

(** With the file name a bytes object, the message of the encode filter for
    a buffer that is not an archive cannot be built. *)
Example encode_link :
  @zipdocencode Box.lib Sample.link [] (Sample.b "report.docx")
  = ([], Raise TypeError).
Proof. vm_compute. reflexivity. Qed.

(** A member stored with a method the library cannot read makes the filter
    raise; nothing is returned. *)
Example encode_unreadable :
  @zipdocencode Box.lib
    (Box.pack (mkZipWriter ZIP_STORED
                 [(Sample.info "a.txt" 99, Sample.thumbnail)]))
    [] (Sample.b "odd.zip")
  = ([], Raise ReadError).
Proof. vm_compute. reflexivity. Qed.

(** ** [startswith], [drop], [occurs] *)

Lemma startswith_app (p r : bytes) : startswith p (p ++ r) = true.
Proof.
  induction p as [|a p IH]; simpl; [reflexivity|].
  rewrite (byte_dec_lb (eq_refl a)). exact IH.
Qed.

Lemma startswith_inv (p s : bytes) :
  startswith p s = true -> exists r, s = p ++ r.
Proof.
  revert s. induction p as [|a p IH]; intros s H.
  - exists s. reflexivity.
  - destruct s as [|c s]; simpl in H; [discriminate|].
    apply andb_true_iff in H. destruct H as [Hac Hp].
    apply byte_dec_bl in Hac. subst c.
    destruct (IH s Hp) as [r ->]. exists r. reflexivity.
Qed.

Lemma drop_app (p r : bytes) : drop (List.length p) (p ++ r) = r.
Proof.
  induction p as [|a p IH]; simpl.
  - destruct r; reflexivity.
  - exact IH.
Qed.

Lemma occurs_cons (p : bytes) (c : byte) (s : bytes) :
  occurs p (c :: s) = startswith p (c :: s) || occurs p s.
Proof. reflexivity. Qed.

Lemma occurs_infix (p l r : bytes) : occurs p (l ++ p ++ r) = true.
Proof.
  induction l as [|c l IH].
  - simpl app. destruct (p ++ r) eqn:E; simpl; rewrite <- ?E;
      rewrite startswith_app; reflexivity.
  - simpl app. rewrite occurs_cons, IH. apply orb_true_r.
Qed.

Lemma occurs_inv (p s : bytes) :
  occurs p s = true -> exists l r, s = l ++ p ++ r.
Proof.
  induction s as [|c s IH]; intros H.
  - simpl in H. rewrite orb_false_r in H.
    destruct (startswith_inv _ _ H) as [r Hr]. exists [], r. exact Hr.
  - rewrite occurs_cons in H. apply orb_true_iff in H. destruct H as [H|H].
    + destruct (startswith_inv _ _ H) as [r Hr]. exists [], r. exact Hr.
    + destruct (IH H) as (l & r & ->). exists (c :: l), r. reflexivity.
Qed.

(** The boolean search decides "the pattern is an infix". *)
Lemma occurs_spec (p s : bytes) :
  occurs p s = true <-> exists l r, s = l ++ p ++ r.
Proof.
  split; [apply occurs_inv|]. intros (l & r & ->). apply occurs_infix.
Qed.

Lemma absent_occurs (p s : bytes) :
  ~ (exists l r, s = l ++ p ++ r) -> occurs p s = false.
Proof.
  intros H. destruct (occurs p s) eqn:E; [|reflexivity].
  exfalso. apply H. apply occurs_inv. exact E.
Qed.

Lemma occurs_absent (p s : bytes) :
  occurs p s = false -> ~ (exists l r, s = l ++ p ++ r).
Proof.
  intros E H. apply occurs_spec in H. congruence.
Qed.

(** ** [bytes.replace] *)

Section Scan.
Variables (a : byte) (old' new : bytes).
Let old := a :: old'.

Lemma replace_scan_hit (r : bytes) :
  replace_scan old new (old ++ r) = new ++ replace_scan old new r.
Proof.
  unfold old. simpl app. cbn [replace_scan].
  change (a :: old' ++ r) with ((a :: old') ++ r).
  rewrite startswith_app.
  replace (List.length (a :: old') - 1) with (List.length old')
    by (simpl; lia).
  rewrite drop_app. reflexivity.
Qed.

Lemma replace_scan_miss (c : byte) (s : bytes) :
  startswith old (c :: s) = false ->
  replace_scan old new (c :: s) = c :: replace_scan old new s.
Proof.
  intros H. cbn [replace_scan]. rewrite H. reflexivity.
Qed.

(** Induction along the scan: the empty buffer, a buffer that begins with
    the pattern, a buffer that does not. *)
Lemma scan_ind (P : bytes -> Prop) :
  P [] ->
  (forall r, P r -> P (old ++ r)) ->
  (forall c s, startswith old (c :: s) = false -> P s -> P (c :: s)) ->
  forall s, P s.
Proof.
  intros Hnil Hhit Hmiss s.
  remember (List.length s) as n eqn:Hn. revert s Hn.
  induction n as [n IH] using lt_wf_ind. intros s Hn.
  destruct s as [|c s]; [exact Hnil|].
  destruct (startswith old (c :: s)) eqn:E.
  - destruct (startswith_inv _ _ E) as [r Hr]. rewrite Hr.
    apply Hhit. apply (IH (List.length r)); [|reflexivity].
    subst n. rewrite Hr. unfold old. simpl. rewrite length_app. lia.
  - apply Hmiss; [exact E|].
    apply (IH (List.length s)); [|reflexivity]. subst n. simpl. lia.
Qed.

(** Where the pattern does not occur, nothing is replaced. *)
Lemma replace_scan_absent (s : bytes) :
  occurs old s = false -> replace_scan old new s = s.
Proof.
  induction s as [|c s IH]; intros H; [reflexivity|].
  rewrite occurs_cons in H. apply orb_false_iff in H. destruct H as [H1 H2].
  rewrite replace_scan_miss by exact H1. rewrite IH by exact H2. reflexivity.
Qed.

End Scan.

(** When pattern and replacement begin with the same byte, a prefix of the
    result that avoids this byte is a prefix of the input. *)
Lemma replace_scan_prefix (a : byte) (old' new' q s : bytes) :
  ~ In a q ->
  startswith q (replace_scan (a :: old') (a :: new') s) = true ->
  startswith q s = true.
Proof.
  revert s. induction q as [|d q IH]; intros s Hq H; [reflexivity|].
  destruct s as [|c s]; [simpl in H; discriminate|].
  cbn [replace_scan] in H.
  destruct (startswith (a :: old') (c :: s)) eqn:E.
  - simpl in H. apply andb_true_iff in H. destruct H as [H _].
    apply byte_dec_bl in H. exfalso. apply Hq. left. exact H.
  - simpl in H. apply andb_true_iff in H. destruct H as [Hdc H].
    simpl. rewrite Hdc. simpl. apply IH; [|exact H].
    intros Hin. apply Hq. right. exact Hin.
Qed.

(** ** The line substitution and its inverse *)

Lemma startswith_cons (a : byte) (p : bytes) (c : byte) (s : bytes) :
  startswith (a :: p) (c :: s) = Byte.eqb a c && startswith p s.
Proof. reflexivity. Qed.

Lemma xml_split_hit (r : bytes) :
  xml_split (tags_joined ++ r) = tags_split ++ xml_split r.
Proof. exact (replace_scan_hit GT [LT] tags_split r). Qed.

Lemma xml_split_miss (c : byte) (s : bytes) :
  startswith tags_joined (c :: s) = false ->
  xml_split (c :: s) = c :: xml_split s.
Proof. exact (replace_scan_miss GT [LT] tags_split c s). Qed.

Lemma xml_join_hit (r : bytes) :
  xml_join (tags_split ++ r) = tags_joined ++ xml_join r.
Proof. exact (replace_scan_hit GT [CR; LF; SP; LT] tags_joined r). Qed.

Lemma xml_join_miss (c : byte) (s : bytes) :
  startswith tags_split (c :: s) = false ->
  xml_join (c :: s) = c :: xml_join s.
Proof. exact (replace_scan_miss GT [CR; LF; SP; LT] tags_joined c s). Qed.

Lemma GT_not_in_LT : ~ In GT [LT].
Proof. vm_compute. intuition discriminate. Qed.

Lemma GT_not_in_break : ~ In GT [CR; LF; SP; LT].
Proof. vm_compute. intuition discriminate. Qed.

(** A [<] at the head of the split text was at the head of the text. *)
Lemma xml_split_head (q s : bytes) :
  ~ In GT q -> startswith q (xml_split s) = true -> startswith q s = true.
Proof. exact (replace_scan_prefix GT [LT] [CR; LF; SP; LT] q s). Qed.

Lemma xml_join_head (q s : bytes) :
  ~ In GT q -> startswith q (xml_join s) = true -> startswith q s = true.
Proof. exact (replace_scan_prefix GT [CR; LF; SP; LT] [LT] q s). Qed.

(** Joining undoes splitting on a text that holds no line break between
    tags of its own. *)
Lemma join_split_absent (x : bytes) :
  occurs tags_split x = false -> xml_join (xml_split x) = x.
Proof.
  pattern x. apply (scan_ind GT [LT]); clear x.
  - intros _. reflexivity.
  - intros r IH H.
    change ((GT :: [LT]) ++ r) with (GT :: LT :: r) in H.
    rewrite !occurs_cons in H.
    apply orb_false_iff in H. destruct H as [_ H].
    apply orb_false_iff in H. destruct H as [_ H].
    change ((GT :: [LT]) ++ r) with (tags_joined ++ r).
    rewrite xml_split_hit, xml_join_hit, (IH H). reflexivity.
  - intros c s E IH H.
    rewrite occurs_cons in H. apply orb_false_iff in H. destruct H as [H1 H2].
    change (GT :: [LT]) with tags_joined in E.
    rewrite (xml_split_miss c s E).
    rewrite xml_join_miss; [rewrite (IH H2); reflexivity|].
    destruct (startswith tags_split (c :: xml_split s)) eqn:F; [|reflexivity].
    exfalso. unfold tags_split in F, H1. rewrite startswith_cons in F, H1.
    apply andb_true_iff in F. destruct F as [F1 F2].
    apply (xml_split_head _ _ GT_not_in_break) in F2.
    rewrite F1, F2 in H1. discriminate.
Qed.

(** The split text holds no [><]. *)
Lemma xml_split_free (x : bytes) : occurs tags_joined (xml_split x) = false.
Proof.
  pattern x. apply (scan_ind GT [LT]); clear x.
  - reflexivity.
  - intros r IH.
    change ((GT :: [LT]) ++ r) with (tags_joined ++ r).
    rewrite xml_split_hit.
    change (tags_split ++ xml_split r)
      with (GT :: CR :: LF :: SP :: LT :: xml_split r).
    rewrite !occurs_cons, IH. reflexivity.
  - intros c s E IH.
    change (GT :: [LT]) with tags_joined in E.
    rewrite (xml_split_miss c s E), occurs_cons, IH, orb_false_r.
    destruct (startswith tags_joined (c :: xml_split s)) eqn:F; [|reflexivity].
    exfalso. unfold tags_joined in F, E. rewrite startswith_cons in F, E.
    apply andb_true_iff in F. destruct F as [F1 F2].
    apply (xml_split_head _ _ GT_not_in_LT) in F2.
    rewrite F1, F2 in E. discriminate.
Qed.

(** Splitting undoes joining on a text that holds no [><]. *)
Lemma split_join_absent (y : bytes) :
  occurs tags_joined y = false -> xml_split (xml_join y) = y.
Proof.
  pattern y. apply (scan_ind GT [CR; LF; SP; LT]); clear y.
  - intros _. reflexivity.
  - intros r IH H.
    change ((GT :: [CR; LF; SP; LT]) ++ r)
      with (GT :: CR :: LF :: SP :: LT :: r) in H.
    rewrite !occurs_cons in H.
    do 5 (apply orb_false_iff in H; destruct H as [_ H]).
    change ((GT :: [CR; LF; SP; LT]) ++ r) with (tags_split ++ r).
    rewrite xml_join_hit, xml_split_hit, (IH H). reflexivity.
  - intros c s E IH H.
    rewrite occurs_cons in H. apply orb_false_iff in H. destruct H as [H1 H2].
    change (GT :: [CR; LF; SP; LT]) with tags_split in E.
    rewrite (xml_join_miss c s E).
    rewrite xml_split_miss; [rewrite (IH H2); reflexivity|].
    destruct (startswith tags_joined (c :: xml_join s)) eqn:F; [|reflexivity].
    exfalso. unfold tags_joined in F, H1. rewrite startswith_cons in F, H1.
    apply andb_true_iff in F. destruct F as [F1 F2].
    apply (xml_join_head _ _ GT_not_in_LT) in F2.
    rewrite F1, F2 in H1. discriminate.
Qed.

(** C1: for every byte sequence [x] in which [b">\r\n <"] does not occur,
    replacing every [b"><"] by [b">\r\n <"] and then every [b">\r\n <"] by
    [b"><"] gives [x] back. *)
Theorem xml_round_trip (x : bytes) :
  ~ (exists l r, x = l ++ tags_split ++ r) ->
  xml_join (xml_split x) = x.
Proof.
  intros H. apply join_split_absent. apply absent_occurs. exact H.
Qed.

Lemma xml_round_trip_witness :
  ~ (exists l r, Sample.doc_joined = l ++ tags_split ++ r) /\
  xml_join (xml_split Sample.doc_joined) = Sample.doc_joined.
Proof.
  assert (H : ~ (exists l r, Sample.doc_joined = l ++ tags_split ++ r))
    by (apply occurs_absent; reflexivity).
  split; [exact H | exact (xml_round_trip Sample.doc_joined H)].
Defined.

(** C3, as the specification words it, fails: the text [b">\r\n <"] is left
    alone by the split and collapsed by the join. *)
Lemma join_split_not_inverse_everywhere :
  ~ ((forall x, xml_join (xml_split x) = x) /\
     (forall y, (exists x, y = xml_split x) -> xml_split (xml_join y) = y)).
Proof.
  intros [H _]. specialize (H tags_split). vm_compute in H. discriminate.
Qed.

(** C3, amended: [join (split x) = x] for every [x] in which [b">\r\n <"]
    does not occur, and [split (join y) = y] for every [y] that is the
    result of a split. *)
Theorem split_join_inverse_on_images :
  (forall x, ~ (exists l r, x = l ++ tags_split ++ r) ->
             xml_join (xml_split x) = x) /\
  (forall y, (exists x, y = xml_split x) -> xml_split (xml_join y) = y).
Proof.
  split.
  - intros x H. apply join_split_absent. apply absent_occurs. exact H.
  - intros y [x ->]. apply split_join_absent. apply xml_split_free.
Qed.

Lemma split_join_inverse_on_images_witness :
  xml_join (xml_split Sample.thumbnail) = Sample.thumbnail /\
  xml_split (xml_join Sample.doc_split) = Sample.doc_split.
Proof.
  split.
  - apply (proj1 split_join_inverse_on_images).
    apply occurs_absent. reflexivity.
  - apply (proj2 split_join_inverse_on_images).
    exists Sample.doc_joined. reflexivity.
Defined.

(** C10: splitting twice is splitting once, because the split text holds no
    [b"><"] any more. *)
Theorem xml_split_idempotent (x : bytes) :
  ~ (exists l r, xml_split x = l ++ tags_joined ++ r) /\
  xml_split (xml_split x) = xml_split x.
Proof.
  split.
  - apply occurs_absent. apply xml_split_free.
  - apply (replace_scan_absent GT [LT] tags_split). apply xml_split_free.
Qed.

(** [bytes.replace] does what the specification's words say. *)
Lemma startswith_extend (p s t : bytes) :
  startswith p s = true -> startswith p (s ++ t) = true.
Proof.
  intros H. destruct (startswith_inv _ _ H) as [r ->].
  rewrite <- app_assoc. apply startswith_app.
Qed.

Lemma join_with_more (sep c c' : bytes) (rest : list bytes) :
  join_with sep (c :: c' :: rest) = c ++ sep ++ join_with sep (c' :: rest).
Proof. reflexivity. Qed.

Lemma replace_scan_chunks (a : byte) (old' new s : bytes) :
  exists c chunks,
    s = join_with (a :: old') (c :: chunks) /\
    replace_scan (a :: old') new s = join_with new (c :: chunks) /\
    Forall (fun c => occurs (a :: old') c = false) (c :: chunks).
Proof.
  pattern s. apply (scan_ind a old'); clear s.
  - exists [], []. repeat split. constructor; [reflexivity|constructor].
  - intros r (c & chunks & Hs & Ht & Hf).
    exists [], (c :: chunks). rewrite replace_scan_hit, !join_with_more.
    rewrite <- Hs, <- Ht. repeat split.
    constructor; [reflexivity|exact Hf].
  - intros b s E (c & chunks & Hs & Ht & Hf).
    exists (b :: c), chunks. rewrite (replace_scan_miss a old' new b s E).
    split; [|split].
    + rewrite Hs. destruct chunks; reflexivity.
    + rewrite Ht. destruct chunks; reflexivity.
    + inversion Hf as [|? ? Hc Hrest]; subst. constructor; [|exact Hrest].
      rewrite occurs_cons, Hc, orb_false_r.
      destruct (startswith (a :: old') (b :: c)) eqn:F; [|reflexivity].
      exfalso. destruct chunks as [|c' chunks].
      * cbn [join_with] in E. congruence.
      * rewrite join_with_more in E.
        apply (startswith_extend _ _
                 ((a :: old') ++ join_with (a :: old') (c' :: chunks))) in F.
        change ((b :: c) ++ (a :: old') ++ join_with (a :: old') (c' :: chunks))
          with (b :: c ++ (a :: old') ++ join_with (a :: old') (c' :: chunks))
          in F.
        congruence.
Qed.

Lemma replace_everywhere (a : byte) (old' new s : bytes) :
  replaced_everywhere (a :: old') new s (replace (a :: old') new s).
Proof.
  destruct (replace_scan_chunks a old' new s) as (c & chunks & Hs & Ht & Hf).
  exists (c :: chunks). split; [exact Hs|]. split; [exact Ht|].
  eapply Forall_impl; [|exact Hf]. intros x Hx. apply occurs_absent. exact Hx.
Qed.

(* ================================================================== *)
(** ** The container format keeps the library's contract *)

Module BoxFacts.
Import Box.

Lemma get_nat_put (n : nat) (r : bytes) :
  get_nat (put_nat n ++ r) = Some (n, r).
Proof.
  induction n as [|n IH]; cbn [put_nat app get_nat].
  - reflexivity.
  - change (Byte.eqb x01 x00) with false. change (Byte.eqb x01 x01) with true.
    cbv iota. rewrite IH. reflexivity.
Qed.

Lemma get_pos_put (p : positive) (r : bytes) :
  get_pos (put_pos p ++ r) = Some (p, r).
Proof.
  induction p as [p IH|p IH|]; cbn [put_pos app get_pos].
  - change (Byte.eqb x01 x02) with false. change (Byte.eqb x01 x00) with false.
    change (Byte.eqb x01 x01) with true. cbv iota. rewrite IH. reflexivity.
  - change (Byte.eqb x00 x02) with false. change (Byte.eqb x00 x00) with true.
    cbv iota. rewrite IH. reflexivity.
  - reflexivity.
Qed.

Lemma get_Z_put (z : Z) (r : bytes) : get_Z (put_Z z ++ r) = Some (z, r).
Proof.
  destruct z as [|p|p]; cbn [put_Z app get_Z].
  - reflexivity.
  - change (Byte.eqb x01 x00) with false. cbv iota.
    rewrite get_pos_put. reflexivity.
  - change (Byte.eqb x02 x00) with false. cbv iota.
    rewrite get_pos_put. reflexivity.
Qed.

Lemma firstn_exact (p r : bytes) : firstn (List.length p) (p ++ r) = p.
Proof. induction p as [|a p IH]; simpl; [reflexivity | rewrite IH; reflexivity]. Qed.

Lemma skipn_exact (p r : bytes) : skipn (List.length p) (p ++ r) = r.
Proof. induction p as [|a p IH]; simpl; [reflexivity | exact IH]. Qed.

Lemma get_bytes_put (p r : bytes) :
  get_bytes (put_bytes p ++ r) = Some (p, r).
Proof.
  unfold put_bytes, get_bytes. rewrite <- app_assoc, get_nat_put.
  replace (List.length p <=? List.length (p ++ r)) with true.
  - rewrite firstn_exact, skipn_exact. reflexivity.
  - symmetry. apply Nat.leb_le. rewrite length_app. lia.
Qed.

Lemma get_member_put (offset : Z) (m : member) (r : bytes) :
  get_member offset (put_member m ++ r)
  = Some ((mkZipInfo (filename (fst m)) (compress_type (fst m))
                     (external_attr (fst m)) (comment (fst m)) offset
                     (flag_bits (fst m)) (Z.of_nat (List.length (snd m))),
           snd m), r).
Proof.
  unfold get_member, put_member. rewrite <- !app_assoc.
  rewrite get_bytes_put, get_Z_put, get_Z_put, get_bytes_put, get_Z_put,
    get_bytes_put.
  rewrite string_of_list_byte_of_string. reflexivity.
Qed.

Lemma get_members_put (ms : list member) (offset : Z) :
  get_members (List.length ms) offset (flat_map put_member ms)
  = Some (renumber offset ms).
Proof.
  revert offset. induction ms as [|m ms IH]; intros offset.
  - reflexivity.
  - cbn [List.length flat_map get_members renumber].
    rewrite get_member_put, IH. reflexivity.
Qed.

Lemma parse_pack (w : ZipWriter) :
  parse (pack w) = Some (renumber 0 (filelist w)).
Proof.
  unfold parse, pack. rewrite startswith_app.
  change 2 with (List.length magic). rewrite drop_app.
  rewrite get_nat_put. apply get_members_put.
Qed.

Lemma renumber_offset (ms pre post : list member) (m : member) (offset : Z) :
  renumber offset ms = pre ++ m :: post ->
  header_offset (fst m) = (offset + Z.of_nat (List.length pre))%Z.
Proof.
  revert offset pre. induction ms as [|m0 ms IH]; intros offset pre H.
  - destruct pre; discriminate.
  - destruct pre as [|p pre]; cbn [renumber app] in H.
    + injection H as Hm _. subst m. simpl. lia.
    + injection H as _ H. rewrite (IH _ _ H). cbn [List.length]. lia.
Qed.

Lemma renumber_same (ms : list member) (offset : Z) :
  Forall2 same_member (renumber offset ms) ms.
Proof.
  revert offset. induction ms as [|m ms IH]; intros offset; constructor.
  - repeat split.
  - apply IH.
Qed.

Lemma read_all_parsed (s : bytes) (ms all : list member) :
  parse s = Some all ->
  all = renumber 0 ms ->
  Forall (fun m => readable (compress_type (fst m)) = true) all ->
  forall post pre, all = pre ++ post ->
    @read_all lib s (map fst post) = Return post.
Proof.
  intros Hp Hall Hr. induction post as [|m post IH]; intros pre E.
  - reflexivity.
  - cbn [map read_all]. cbn [zf_read lib]. unfold read at 1. rewrite Hp.
    assert (Ho : header_offset (fst m) = Z.of_nat (List.length pre)).
    { rewrite (renumber_offset ms pre post m 0); [lia|]. congruence. }
    rewrite Ho, Nat2Z.id.
    assert (Hn : nth_error all (List.length pre) = Some m).
    { rewrite E, nth_error_app2, Nat.sub_diag by lia. reflexivity. }
    rewrite Hn.
    assert (Hm : readable (compress_type (fst m)) = true).
    { rewrite Forall_forall in Hr. apply Hr. rewrite E.
      apply in_or_app. right. left. reflexivity. }
    rewrite Hm. cbn [bind].
    rewrite (IH (pre ++ [m])) by (rewrite <- app_assoc; exact E).
    cbn [bind]. destruct m; reflexivity.
Qed.

Lemma renumber_readable (ms : list member) (offset : Z) :
  Forall (fun m => writable (compress_type (fst m))) ms ->
  Forall (fun m => readable (compress_type (fst m)) = true)
         (renumber offset ms).
Proof.
  intros H. revert offset. induction H as [|m ms Hm _ IH]; intros offset.
  - constructor.
  - constructor; [|apply IH]. cbn [fst compress_type].
    destruct Hm as [-> | ->]; reflexivity.
Qed.

(** The container format is a lawful archive library. *)
Lemma laws : ZipLaws lib.
Proof.
  intros w Hw. exists (renumber 0 (filelist w)). split.
  - unfold members_of. cbn [zf_infolist zf_getvalue lib].
    unfold infolist. rewrite parse_pack. cbn [bind].
    apply (read_all_parsed _ (filelist w) _ (parse_pack w) eq_refl
             (renumber_readable _ _ Hw) _ []).
    reflexivity.
  - apply renumber_same.
Qed.

End BoxFacts.

(* ================================================================== *)
(** ** The loops *)

Section Repack.
Context {L : ZipLib}.

Lemma encode_loop_spec (s : bytes) (infos : list ZipInfo) (w : ZipWriter) :
  encode_loop s infos w =
  (ms <- read_all s infos ;; Return (write_all w (map encode_entry ms))).
Proof.
  revert w. induction infos as [|info infos IH]; intros w.
  - reflexivity.
  - cbn [encode_loop read_all]. destruct (zf_read s info) as [data|e];
      cbn [bind]; [|reflexivity].
    rewrite IH. destruct (read_all s infos) as [ms|e]; cbn [bind];
      [|reflexivity].
    cbn [map].
    change (write_all w (encode_entry (info, data) :: map encode_entry ms))
      with (write_all (writestr w (fst (encode_entry (info, data)))
                                  (snd (encode_entry (info, data))))
                      (map encode_entry ms)).
    do 2 f_equal. unfold encode_entry, repack_entry.
    cbn [fst snd filename set_compress_type].
    destruct (is_xml_name (filename info)); reflexivity.
Qed.

Lemma decode_loop_spec (s : bytes) (infos : list ZipInfo) (w : ZipWriter) :
  decode_loop s infos w =
  (ms <- read_all s infos ;; Return (write_all w (map decode_entry ms))).
Proof.
  revert w. induction infos as [|info infos IH]; intros w.
  - reflexivity.
  - cbn [decode_loop read_all]. destruct (zf_read s info) as [data|e];
      cbn [bind]; [|reflexivity].
    rewrite IH. destruct (read_all s infos) as [ms|e]; cbn [bind];
      [|reflexivity].
    cbn [map].
    change (write_all w (decode_entry (info, data) :: map decode_entry ms))
      with (write_all (writestr w (fst (decode_entry (info, data)))
                                  (snd (decode_entry (info, data))))
                      (map decode_entry ms)).
    do 2 f_equal. unfold decode_entry, repack_entry.
    cbn [fst snd filename set_compress_type].
    destruct (is_xml_name (filename info)); reflexivity.
Qed.

(** What a run of [writestr] calls leaves in the archive: the entries that
    were there, then one written entry for each call, in order. *)
Lemma write_all_filelist (w : ZipWriter) (es : list member) :
  compression (write_all w es) = compression w /\
  exists ws,
    filelist (write_all w es) = filelist w ++ ws /\
    Forall2 written_as ws es.
Proof.
  revert w. induction es as [|e es IH]; intros w.
  - split; [reflexivity|]. exists []. split; [|constructor].
    cbn [write_all fold_left]. rewrite app_nil_r. reflexivity.
  - cbn [write_all fold_left].
    destruct (IH (writestr w (fst e) (snd e))) as [Hc (ws & Hf & Hw)].
    split; [exact Hc|].
    exists ((writestr_info (zf_tell w) (fst e) (snd e), snd e) :: ws).
    split.
    + unfold write_all in Hf. rewrite Hf. cbn [writestr filelist].
      rewrite <- app_assoc. reflexivity.
    + constructor; [|exact Hw]. exists (zf_tell w). reflexivity.
Qed.

Lemma written_entries (policy : Z) (es : list member) :
  Forall2 written_as (filelist (write_all (ZipFile_w policy) es)) es.
Proof.
  destruct (write_all_filelist (ZipFile_w policy) es) as [_ (ws & Hf & Hw)].
  rewrite Hf. exact Hw.
Qed.

(** On an archive all of whose members can be read, [zipdocencode] returns,
    and what it returns is the archive of the re-packed entries. *)
Lemma zipdocencode_valid (z : bytes) (ms : list member) (cmd fn : bytes) :
  members_of z = Return ms ->
  encode_writer z
  = Return (write_all (ZipFile_w ZIP_STORED) (map encode_entry ms)) /\
  exists msg,
    zipdocencode z cmd fn =
    ([Debug msg],
     Return (zf_getvalue
               (write_all (ZipFile_w ZIP_STORED) (map encode_entry ms)))).
Proof.
  unfold members_of, encode_writer, zipdocencode.
  destruct (zf_infolist z) as [infos|e]; cbn [bind]; [|discriminate].
  intros H. rewrite encode_loop_spec, H. cbn [bind].
  split; [reflexivity|]. eexists. reflexivity.
Qed.

Lemma zipdocdecode_valid (z : bytes) (ms : list member) (cmd fn : bytes) :
  members_of z = Return ms ->
  decode_writer z
  = Return (write_all (ZipFile_w ZIP_DEFLATED) (map decode_entry ms)) /\
  exists msg,
    zipdocdecode z cmd fn =
    ([Debug msg],
     Return (zf_getvalue
               (write_all (ZipFile_w ZIP_DEFLATED) (map decode_entry ms)))).
Proof.
  unfold members_of, decode_writer, zipdocdecode.
  destruct (zf_infolist z) as [infos|e]; cbn [bind]; [|discriminate].
  intros H. rewrite decode_loop_spec, H. cbn [bind].
  split; [reflexivity|]. eexists. reflexivity.
Qed.

End Repack.

(** ** Written entries *)

Lemma written_nth (ws es : list member) (i : nat) (e : member) :
  Forall2 written_as ws es ->
  nth_error es i = Some e ->
  exists offset,
    nth_error ws i = Some (writestr_info offset (fst e) (snd e), snd e).
Proof.
  intros H. revert i. induction H as [|w e0 ws es [offset Hw] _ IH];
    intros [|i] Hi; try discriminate.
  - injection Hi as ->. exists offset. rewrite Hw. reflexivity.
  - apply IH. exact Hi.
Qed.

Lemma written_same (ws es : list member) :
  Forall2 written_as ws es -> Forall2 same_member ws es.
Proof.
  induction 1 as [|w e ws es [offset ->] _ IH]; constructor; [|exact IH].
  repeat split.
Qed.

Lemma same_members_refl (ms : list member) : Forall2 same_member ms ms.
Proof. induction ms; constructor; [repeat split | assumption]. Qed.

Lemma same_members_sym (a b : list member) :
  Forall2 same_member a b -> Forall2 same_member b a.
Proof.
  induction 1 as [|x y a b (Hn & Hc & Hd) _ IH]; constructor; [|exact IH].
  repeat split; symmetry; assumption.
Qed.

Lemma same_members_trans (a b c : list member) :
  Forall2 same_member a b -> Forall2 same_member b c ->
  Forall2 same_member a c.
Proof.
  intros H. revert c.
  induction H as [|x y a b (Hn & Hc & Hd) _ IH]; intros c Hbc;
    inversion Hbc as [|? z ? c' (Hn' & Hc' & Hd') Hrest]; subst;
    constructor.
  - repeat split; congruence.
  - apply IH. exact Hrest.
Qed.


(** ** Entries *)

Lemma repack_entry_name (ct : Z) (f : bytes -> bytes) (ms : list member) :
  map member_name (map (repack_entry ct f) ms) = map member_name ms.
Proof. rewrite map_map. apply map_ext. reflexivity. Qed.

Lemma repack_entry_method (ct : Z) (f : bytes -> bytes) (ms : list member) :
  Forall (fun m => compress_type (fst m) = ct) (map (repack_entry ct f) ms).
Proof. apply Forall_map. apply Forall_forall. reflexivity. Qed.

Lemma repack_entry_plain (ct : Z) (f : bytes -> bytes) (ms : list member) :
  Forall (fun m => is_xml_name (member_name m) = false) ms ->
  map member_data (map (repack_entry ct f) ms) = map member_data ms.
Proof.
  intros H. rewrite map_map. induction H as [|m ms Hm _ IH]; [reflexivity|].
  cbn [map]. rewrite IH. f_equal.
  unfold repack_entry, member_data, member_name in *. cbn [snd].
  rewrite Hm. reflexivity.
Qed.

Lemma same_member_names (rs ws : list member) :
  Forall2 same_member rs ws -> map member_name rs = map member_name ws.
Proof.
  induction 1 as [|r w rs ws (Hn & _ & _) _ IH]; [reflexivity|].
  cbn [map]. unfold member_name at 1 3. rewrite Hn, IH. reflexivity.
Qed.

Lemma same_member_data (rs ws : list member) :
  Forall2 same_member rs ws -> map member_data rs = map member_data ws.
Proof.
  induction 1 as [|r w rs ws (_ & _ & Hd) _ IH]; [reflexivity|].
  cbn [map]. unfold member_data at 1 3. rewrite Hd, IH. reflexivity.
Qed.

Lemma same_member_method (ct : Z) (rs ws : list member) :
  Forall2 same_member rs ws ->
  Forall (fun m => compress_type (fst m) = ct) ws ->
  Forall (fun m => compress_type (fst m) = ct) rs.
Proof.
  induction 1 as [|r w rs ws (_ & Hc & _) _ IH]; intros H; [constructor|].
  inversion H; subst. constructor; [congruence | apply IH; assumption].
Qed.

Lemma plain_names (rs ws : list member) :
  map member_name rs = map member_name ws ->
  Forall (fun m => is_xml_name (member_name m) = false) ws ->
  Forall (fun m => is_xml_name (member_name m) = false) rs.
Proof.
  intros E H.
  apply (Forall_map member_name (fun n => is_xml_name n = false)).
  rewrite E. apply Forall_map. exact H.
Qed.

(** Reading back what a filter has written. *)
Lemma reread {L : ZipLib} (HL : ZipLaws L) (policy ct : Z)
    (f : bytes -> bytes) (ms : list member) :
  writable ct ->
  exists ms',
    members_of (zf_getvalue (write_all (ZipFile_w policy)
                               (map (repack_entry ct f) ms)))
    = Return ms' /\
    Forall2 same_member ms' (map (repack_entry ct f) ms).
Proof.
  intros Hct.
  pose proof (written_same _ _
                (written_entries policy (map (repack_entry ct f) ms))) as Hw.
  destruct (HL (write_all (ZipFile_w policy) (map (repack_entry ct f) ms)))
    as (ms' & Hms' & Hsame).
  - eapply Forall_impl;
      [|apply (same_member_method ct _ _ Hw (repack_entry_method ct f ms))].
    intros m Hm. cbn beta in Hm. rewrite Hm. exact Hct.
  - exists ms'. split; [exact Hms'|].
    apply (same_members_trans _ _ _ Hsame Hw).
Qed.

(* ================================================================== *)
(** ** The filters on archives *)

(** C4: on an archive all of whose members can be read, the entry that
    [zipdocencode] writes for a member whose lower-cased name ends in [.xml]
    holds the member's content with every [b"><"] replaced by [b">\r\n <"];
    [b"<a><b/></a>"] becomes [b"<a>\r\n <b/>\r\n </a>"]. *)
Theorem encode_splits_xml_members {L : ZipLib} (z : bytes)
    (ms : list member) (cmd fn : bytes) :
  members_of z = Return ms ->
  (exists w,
     encode_writer z = Return w /\
     snd (zipdocencode z cmd fn) = Return (zf_getvalue w) /\
     forall i info data,
       nth_error ms i = Some (info, data) ->
       is_xml_name (filename info) = true ->
       (exists offset,
          nth_error (filelist w) i
          = Some (writestr_info offset (set_compress_type info ZIP_STORED)
                    (replace tags_joined tags_split data),
                  replace tags_joined tags_split data)) /\
       replaced_everywhere tags_joined tags_split data
         (replace tags_joined tags_split data)) /\
  replace tags_joined tags_split Sample.doc_joined = Sample.doc_split.
Proof.
  intros H. split; [|reflexivity].
  destruct (zipdocencode_valid z ms cmd fn H) as [Hw [msg Hout]].
  eexists. split; [exact Hw|]. split; [rewrite Hout; reflexivity|].
  intros i info data Hi Hx. split; [|apply replace_everywhere].
  destruct (written_nth _ _ i (encode_entry (info, data))
              (written_entries ZIP_STORED (map encode_entry ms)))
    as [offset Hn].
  { rewrite nth_error_map, Hi. reflexivity. }
  exists offset. rewrite Hn.
  unfold encode_entry, repack_entry. cbn [fst snd]. rewrite Hx. reflexivity.
Qed.

Lemma encode_splits_xml_members_witness :
  @members_of Box.lib Sample.docx
  = Return (Box.renumber 0 Sample.docx_entries) /\
  exists w offset,
    @encode_writer Box.lib Sample.docx = Return w /\
    nth_error (filelist w) 0
    = Some (mkZipInfo "word/document.xml"%string ZIP_STORED 25165824 [] offset 0 17,
            Sample.doc_split).
Proof.
  assert (H : @members_of Box.lib Sample.docx
              = Return (Box.renumber 0 Sample.docx_entries))
    by (vm_compute; reflexivity).
  split; [exact H|].
  destruct (@encode_splits_xml_members Box.lib _ _ [] (Sample.b "report.docx") H)
    as [(w & Hw & _ & Hx) _].
  destruct (proj1 (Hx 0 _ _ eq_refl eq_refl)) as [offset Hn].
  exists w, offset. split; [exact Hw | exact Hn].
Defined.

(** C5: on an archive all of whose members can be read, the entry that
    [zipdocdecode] writes for a member whose lower-cased name ends in [.xml]
    holds the member's content with every [b">\r\n <"] replaced by
    [b"><"]. *)
Theorem decode_joins_xml_members {L : ZipLib} (z : bytes)
    (ms : list member) (cmd fn : bytes) :
  members_of z = Return ms ->
  exists w,
    decode_writer z = Return w /\
    snd (zipdocdecode z cmd fn) = Return (zf_getvalue w) /\
    forall i info data,
      nth_error ms i = Some (info, data) ->
      is_xml_name (filename info) = true ->
      (exists offset,
         nth_error (filelist w) i
         = Some (writestr_info offset (set_compress_type info ZIP_DEFLATED)
                   (replace tags_split tags_joined data),
                 replace tags_split tags_joined data)) /\
      replaced_everywhere tags_split tags_joined data
        (replace tags_split tags_joined data).
Proof.
  intros H.
  destruct (zipdocdecode_valid z ms cmd fn H) as [Hw [msg Hout]].
  eexists. split; [exact Hw|]. split; [rewrite Hout; reflexivity|].
  intros i info data Hi Hx. split; [|apply replace_everywhere].
  destruct (written_nth _ _ i (decode_entry (info, data))
              (written_entries ZIP_DEFLATED (map decode_entry ms)))
    as [offset Hn].
  { rewrite nth_error_map, Hi. reflexivity. }
  exists offset. rewrite Hn.
  unfold decode_entry, repack_entry. cbn [fst snd]. rewrite Hx. reflexivity.
Qed.

Lemma decode_joins_xml_members_witness :
  @members_of Box.lib Sample.stored
  = Return (Box.renumber 0 Sample.stored_entries) /\
  exists w offset,
    @decode_writer Box.lib Sample.stored = Return w /\
    nth_error (filelist w) 0
    = Some (mkZipInfo "word/document.xml"%string ZIP_DEFLATED 25165824 [] offset 0 11,
            Sample.doc_joined).
Proof.
  assert (H : @members_of Box.lib Sample.stored
              = Return (Box.renumber 0 Sample.stored_entries))
    by (vm_compute; reflexivity).
  split; [exact H|].
  destruct (@decode_joins_xml_members Box.lib _ _ [] (Sample.b "report.docx") H)
    as (w & Hw & _ & Hx).
  destruct (proj1 (Hx 0 _ _ eq_refl eq_refl)) as [offset Hn].
  exists w, offset. split; [exact Hw | exact Hn].
Defined.

(** C6, the decode half holds and the encode half does not: on a buffer that
    the archive library rejects with [BadZipfile], [zipdocdecode] returns
    the buffer itself and hands exactly one line to [ui], through
    [ui.note]; [zipdocencode], called with the bytes file name that
    Mercurial passes, raises [TypeError] while it builds its message, hands
    nothing to [ui] and returns nothing. *)
Theorem bad_zip_encode_raises {L : ZipLib} (b cmd fn : bytes) :
  zf_infolist b = Raise BadZipfile ->
  zipdocencode b cmd fn = ([], Raise TypeError) /\
  (exists msg, zipdocdecode b cmd fn = ([Note msg], Return b)).
Proof.
  intros H. unfold zipdocencode, zipdocdecode. rewrite H.
  split; [reflexivity | eexists; reflexivity].
Qed.

Lemma bad_zip_encode_raises_witness :
  @zf_infolist Box.lib Sample.link = Raise BadZipfile /\
  @zipdocencode Box.lib Sample.link [] (Sample.b "template.docx")
  = ([], Raise TypeError) /\
  (exists msg, @zipdocdecode Box.lib Sample.link [] (Sample.b "template.docx")
               = ([Note msg], Return Sample.link)).
Proof.
  assert (H : @zf_infolist Box.lib Sample.link = Raise BadZipfile)
    by reflexivity.
  split; [exact H|].
  exact (@bad_zip_encode_raises Box.lib Sample.link []
           (Sample.b "template.docx") H).
Defined.

(** C7: with a lawful archive library and an archive all of whose members
    can be read, every member of the archive that [zipdocencode] returns has
    compression method [ZIP_STORED], and every member of the archive that
    [zipdocdecode] returns has [ZIP_DEFLATED]. *)
Theorem compression_policy {L : ZipLib} (HL : ZipLaws L) (z : bytes)
    (ms : list member) (cmd fn : bytes) :
  members_of z = Return ms ->
  (exists log outs ms',
     zipdocencode z cmd fn = (log, Return outs) /\
     members_of outs = Return ms' /\
     Forall (fun m => compress_type (fst m) = ZIP_STORED) ms') /\
  (exists log outs ms',
     zipdocdecode z cmd fn = (log, Return outs) /\
     members_of outs = Return ms' /\
     Forall (fun m => compress_type (fst m) = ZIP_DEFLATED) ms').
Proof.
  intros H. split.
  - destruct (zipdocencode_valid z ms cmd fn H) as [_ [msg Hout]].
    destruct (reread HL ZIP_STORED ZIP_STORED xml_split ms (or_introl eq_refl))
      as (ms' & Hms' & Hsame).
    do 2 eexists. exists ms'. split; [exact Hout|]. split; [exact Hms'|].
    apply (same_member_method _ _ _ Hsame). apply repack_entry_method.
  - destruct (zipdocdecode_valid z ms cmd fn H) as [_ [msg Hout]].
    destruct (reread HL ZIP_DEFLATED ZIP_DEFLATED xml_join ms
                (or_intror eq_refl)) as (ms' & Hms' & Hsame).
    do 2 eexists. exists ms'. split; [exact Hout|]. split; [exact Hms'|].
    apply (same_member_method _ _ _ Hsame). apply repack_entry_method.
Qed.

Lemma compression_policy_witness :
  ZipLaws Box.lib /\
  @members_of Box.lib Sample.images
  = Return (Box.renumber 0 Sample.images_entries) /\
  exists log outs ms',
    @zipdocencode Box.lib Sample.images [] (Sample.b "images.zip")
    = (log, Return outs) /\
    @members_of Box.lib outs = Return ms' /\
    Forall (fun m => compress_type (fst m) = ZIP_STORED) ms'.
Proof.
  assert (H : @members_of Box.lib Sample.images
              = Return (Box.renumber 0 Sample.images_entries))
    by (vm_compute; reflexivity).
  split; [exact BoxFacts.laws|]. split; [exact H|].
  exact (proj1 (@compression_policy Box.lib BoxFacts.laws _ _ []
                  (Sample.b "images.zip") H)).
Defined.

(** C8: with a lawful archive library and an archive all of whose members
    can be read, the member names of the archive returned by [zipdocencode],
    and of the one returned by [zipdocdecode], are the member names of the
    input, in the same order and with the same repetitions. *)
Theorem member_names_preserved {L : ZipLib} (HL : ZipLaws L) (z : bytes)
    (ms : list member) (cmd fn : bytes) :
  members_of z = Return ms ->
  (exists log outs ms',
     zipdocencode z cmd fn = (log, Return outs) /\
     members_of outs = Return ms' /\
     map member_name ms' = map member_name ms) /\
  (exists log outs ms',
     zipdocdecode z cmd fn = (log, Return outs) /\
     members_of outs = Return ms' /\
     map member_name ms' = map member_name ms).
Proof.
  intros H. split.
  - destruct (zipdocencode_valid z ms cmd fn H) as [_ [msg Hout]].
    destruct (reread HL ZIP_STORED ZIP_STORED xml_split ms (or_introl eq_refl))
      as (ms' & Hms' & Hsame).
    do 2 eexists. exists ms'. split; [exact Hout|]. split; [exact Hms'|].
    rewrite (same_member_names _ _ Hsame). apply repack_entry_name.
  - destruct (zipdocdecode_valid z ms cmd fn H) as [_ [msg Hout]].
    destruct (reread HL ZIP_DEFLATED ZIP_DEFLATED xml_join ms
                (or_intror eq_refl)) as (ms' & Hms' & Hsame).
    do 2 eexists. exists ms'. split; [exact Hout|]. split; [exact Hms'|].
    rewrite (same_member_names _ _ Hsame). apply repack_entry_name.
Qed.

Lemma member_names_preserved_witness :
  ZipLaws Box.lib /\
  @members_of Box.lib Sample.images
  = Return (Box.renumber 0 Sample.images_entries) /\
  exists log outs ms',
    @zipdocdecode Box.lib Sample.images [] (Sample.b "images.zip")
    = (log, Return outs) /\
    @members_of Box.lib outs = Return ms' /\
    map member_name ms'
    = ["image.png"; "notes.txt"; "image.png"]%string.
Proof.
  assert (H : @members_of Box.lib Sample.images
              = Return (Box.renumber 0 Sample.images_entries))
    by (vm_compute; reflexivity).
  split; [exact BoxFacts.laws|]. split; [exact H|].
  exact (proj2 (@member_names_preserved Box.lib BoxFacts.laws _ _ []
                  (Sample.b "images.zip") H)).
Defined.




(** C2: with a lawful archive library and an archive all of whose members
    can be read and none of whose member names ends, lower-cased, in [.xml],
    decoding the encoded archive gives an archive with the same member names
    in the same order and the same member contents; its members are
    deflated. *)
Theorem round_trip_without_xml {L : ZipLib} (HL : ZipLaws L) (z : bytes)
    (ms : list member) (cmd fn : bytes) :
  members_of z = Return ms ->
  Forall (fun m => is_xml_name (member_name m) = false) ms ->
  exists log1 stored log2 outs ms',
    zipdocencode z cmd fn = (log1, Return stored) /\
    zipdocdecode stored cmd fn = (log2, Return outs) /\
    members_of outs = Return ms' /\
    map member_name ms' = map member_name ms /\
    map member_data ms' = map member_data ms /\
    Forall (fun m => compress_type (fst m) = ZIP_DEFLATED) ms'.
Proof.
  intros H Hplain.
  destruct (zipdocencode_valid z ms cmd fn H) as [_ [msg1 Hout1]].
  destruct (reread HL ZIP_STORED ZIP_STORED xml_split ms (or_introl eq_refl))
    as (ms1 & Hms1 & Hsame1).
  destruct (zipdocdecode_valid _ ms1 cmd fn Hms1) as [_ [msg2 Hout2]].
  destruct (reread HL ZIP_DEFLATED ZIP_DEFLATED xml_join ms1
              (or_intror eq_refl)) as (ms2 & Hms2 & Hsame2).
  assert (Hn1 : map member_name ms1 = map member_name ms).
  { rewrite (same_member_names _ _ Hsame1). apply repack_entry_name. }
  do 4 eexists. exists ms2.
  split; [exact Hout1|]. split; [exact Hout2|]. split; [exact Hms2|].
  split; [|split].
  - rewrite (same_member_names _ _ Hsame2), <- Hn1. apply repack_entry_name.
  - rewrite (same_member_data _ _ Hsame2).
    rewrite repack_entry_plain by (apply (plain_names _ _ Hn1 Hplain)).
    rewrite (same_member_data _ _ Hsame1).
    apply repack_entry_plain. exact Hplain.
  - apply (same_member_method _ _ _ Hsame2). apply repack_entry_method.
Qed.

Lemma round_trip_without_xml_witness :
  ZipLaws Box.lib /\
  @members_of Box.lib Sample.images
  = Return (Box.renumber 0 Sample.images_entries) /\
  Forall (fun m => is_xml_name (member_name m) = false)
         (Box.renumber 0 Sample.images_entries) /\
  exists log1 stored log2 outs ms',
    @zipdocencode Box.lib Sample.images [] (Sample.b "images.zip")
    = (log1, Return stored) /\
    @zipdocdecode Box.lib stored [] (Sample.b "images.zip")
    = (log2, Return outs) /\
    @members_of Box.lib outs = Return ms' /\
    map member_name ms' = ["image.png"; "notes.txt"; "image.png"]%string /\
    map member_data ms'
    = [Sample.thumbnail; Sample.doc_joined; Sample.b "second"] /\
    Forall (fun m => compress_type (fst m) = ZIP_DEFLATED) ms'.
Proof.
  assert (H : @members_of Box.lib Sample.images
              = Return (Box.renumber 0 Sample.images_entries))
    by (vm_compute; reflexivity).
  assert (Hp : Forall (fun m => is_xml_name (member_name m) = false)
                      (Box.renumber 0 Sample.images_entries))
    by (repeat constructor).
  split; [exact BoxFacts.laws|]. split; [exact H|]. split; [exact Hp|].
  exact (@round_trip_without_xml Box.lib BoxFacts.laws _ _ []
           (Sample.b "images.zip") H Hp).
Defined.

(* ================================================================== *)
(** * Further properties *)

(** ** The two substitutions composed *)

Lemma xml_split_skip (c : byte) (s : bytes) :
  Byte.eqb GT c = false -> xml_split (c :: s) = c :: xml_split s.
Proof.
  intros H. apply xml_split_miss. unfold tags_joined.
  rewrite startswith_cons, H. reflexivity.
Qed.

Lemma xml_join_skip (c : byte) (s : bytes) :
  Byte.eqb GT c = false -> xml_join (c :: s) = c :: xml_join s.
Proof.
  intros H. apply xml_join_miss. unfold tags_split.
  rewrite startswith_cons, H. reflexivity.
Qed.

(** A byte in front of the split text begins a line break only if it did so
    in front of the text. *)
Lemma split_keeps_miss (c : byte) (s : bytes) :
  startswith tags_split (c :: s) = false ->
  startswith tags_split (c :: xml_split s) = false.
Proof.
  intros H.
  destruct (startswith tags_split (c :: xml_split s)) eqn:F; [|reflexivity].
  unfold tags_split in F, H. rewrite startswith_cons in F, H.
  apply andb_true_iff in F. destruct F as [F1 F2].
  apply (xml_split_head _ _ GT_not_in_break) in F2.
  rewrite F1, F2 in H. discriminate.
Qed.

Lemma join_keeps_miss (c : byte) (s : bytes) :
  startswith tags_joined (c :: s) = false ->
  startswith tags_joined (c :: xml_join s) = false.
Proof.
  intros H.
  destruct (startswith tags_joined (c :: xml_join s)) eqn:F; [|reflexivity].
  unfold tags_joined in F, H. rewrite startswith_cons in F, H.
  apply andb_true_iff in F. destruct F as [F1 F2].
  apply (xml_join_head _ _ GT_not_in_LT) in F2.
  rewrite F1, F2 in H. discriminate.
Qed.

(** X1: joining the split text gives what joining the text itself gives, for
    every text: the line breaks that were in the text already are collapsed
    together with the inserted ones. *)
Theorem join_after_split (x : bytes) : xml_join (xml_split x) = xml_join x.
Proof.
  pattern x. apply (scan_ind GT [LT]); clear x.
  - reflexivity.
  - intros r IH.
    change ((GT :: [LT]) ++ r) with (tags_joined ++ r).
    rewrite xml_split_hit, xml_join_hit, IH.
    change (tags_joined ++ r) with (GT :: LT :: r).
    rewrite (xml_join_miss GT (LT :: r)) by reflexivity.
    rewrite (xml_join_skip LT r) by reflexivity. reflexivity.
  - intros c s E IH.
    change (GT :: [LT]) with tags_joined in E.
    rewrite (xml_split_miss c s E).
    destruct (startswith tags_split (c :: s)) eqn:F.
    + destruct (startswith_inv _ _ F) as [s' Hs'].
      injection Hs' as -> ->.
      rewrite !xml_split_skip in IH |- * by reflexivity.
      rewrite !xml_join_skip in IH by reflexivity.
      injection IH as IH.
      change (GT :: CR :: LF :: SP :: LT :: xml_split s')
        with (tags_split ++ xml_split s').
      change (GT :: CR :: LF :: SP :: LT :: s') with (tags_split ++ s').
      rewrite !xml_join_hit, IH. reflexivity.
    + rewrite (xml_join_miss c s F).
      rewrite xml_join_miss by (apply split_keeps_miss; exact F).
      rewrite IH. reflexivity.
Qed.

(** X2: splitting the joined text gives what splitting the text itself
    gives, for every text. *)
Theorem split_after_join (y : bytes) : xml_split (xml_join y) = xml_split y.
Proof.
  pattern y. apply (scan_ind GT [CR; LF; SP; LT]); clear y.
  - reflexivity.
  - intros r IH.
    change ((GT :: [CR; LF; SP; LT]) ++ r) with (tags_split ++ r).
    rewrite xml_join_hit, xml_split_hit, IH.
    change (tags_split ++ r) with (GT :: CR :: LF :: SP :: LT :: r).
    rewrite (xml_split_miss GT (CR :: LF :: SP :: LT :: r)) by reflexivity.
    rewrite !xml_split_skip by reflexivity. reflexivity.
  - intros c s E IH.
    change (GT :: [CR; LF; SP; LT]) with tags_split in E.
    rewrite (xml_join_miss c s E).
    destruct (startswith tags_joined (c :: s)) eqn:F.
    + destruct (startswith_inv _ _ F) as [s' Hs'].
      injection Hs' as -> ->.
      rewrite xml_join_skip in IH |- * by reflexivity.
      rewrite !xml_split_skip in IH by reflexivity.
      injection IH as IH.
      change (GT :: LT :: xml_join s') with (tags_joined ++ xml_join s').
      change (GT :: LT :: s') with (tags_joined ++ s').
      rewrite !xml_split_hit, IH. reflexivity.
    + rewrite (xml_split_miss c s F).
      rewrite xml_split_miss by (apply join_keeps_miss; exact F).
      rewrite IH. reflexivity.
Qed.

(** The joined text holds no [>\r\n <]. *)
Lemma xml_join_free (x : bytes) : occurs tags_split (xml_join x) = false.
Proof.
  pattern x. apply (scan_ind GT [CR; LF; SP; LT]); clear x.
  - reflexivity.
  - intros r IH.
    change ((GT :: [CR; LF; SP; LT]) ++ r) with (tags_split ++ r).
    rewrite xml_join_hit.
    change (tags_joined ++ xml_join r) with (GT :: LT :: xml_join r).
    rewrite !occurs_cons, IH. reflexivity.
  - intros c s E IH.
    change (GT :: [CR; LF; SP; LT]) with tags_split in E.
    rewrite (xml_join_miss c s E), occurs_cons, IH, orb_false_r.
    destruct (startswith tags_split (c :: xml_join s)) eqn:F; [|reflexivity].
    exfalso. unfold tags_split in F, E. rewrite startswith_cons in F, E.
    apply andb_true_iff in F. destruct F as [F1 F2].
    apply (xml_join_head _ _ GT_not_in_break) in F2.
    rewrite F1, F2 in E. discriminate.
Qed.

(** X3: the joined text holds no [>\r\n <] any more, and joining twice is
    joining once. *)
Theorem xml_join_idempotent (x : bytes) :
  ~ (exists l r, xml_join x = l ++ tags_split ++ r) /\
  xml_join (xml_join x) = xml_join x.
Proof.
  split.
  - apply occurs_absent. apply xml_join_free.
  - apply (replace_scan_absent GT [CR; LF; SP; LT] tags_joined).
    apply xml_join_free.
Qed.

(** X4: the split leaves a text as it is exactly when the text holds no
    [><], and the join leaves a text as it is exactly when the text holds no
    [>\r\n <]. *)
Theorem substitution_fixed_points (x : bytes) :
  (xml_split x = x <-> ~ (exists l r, x = l ++ tags_joined ++ r)) /\
  (xml_join x = x <-> ~ (exists l r, x = l ++ tags_split ++ r)).
Proof.
  split; split.
  - intros H. apply occurs_absent. rewrite <- H. apply xml_split_free.
  - intros H. apply (replace_scan_absent GT [LT] tags_split).
    apply absent_occurs. exact H.
  - intros H. apply occurs_absent. rewrite <- H. apply xml_join_free.
  - intros H. apply (replace_scan_absent GT [CR; LF; SP; LT] tags_joined).
    apply absent_occurs. exact H.
Qed.

Lemma replace_scan_grows (a : byte) (old' new s : bytes) :
  List.length (a :: old') <= List.length new ->
  List.length s <= List.length (replace_scan (a :: old') new s).
Proof.
  intros H. pattern s. apply (scan_ind a old'); clear s.
  - apply Nat.le_refl.
  - intros r IH. rewrite replace_scan_hit, !length_app. lia.
  - intros c s E IH. rewrite (replace_scan_miss a old' new c s E).
    cbn [List.length]. lia.
Qed.

Lemma replace_scan_shrinks (a : byte) (old' new s : bytes) :
  List.length new <= List.length (a :: old') ->
  List.length (replace_scan (a :: old') new s) <= List.length s.
Proof.
  intros H. pattern s. apply (scan_ind a old'); clear s.
  - apply Nat.le_refl.
  - intros r IH. rewrite replace_scan_hit, !length_app. lia.
  - intros c s E IH. rewrite (replace_scan_miss a old' new c s E).
    cbn [List.length]. lia.
Qed.

(** X5: the split never shortens a text, the join never lengthens one, and
    joining the split text gives a text no longer than the original. *)
Theorem substitution_lengths (x : bytes) :
  List.length x <= List.length (xml_split x) /\
  List.length (xml_join x) <= List.length x /\
  List.length (xml_join (xml_split x)) <= List.length x.
Proof.
  split; [|split].
  - apply (replace_scan_grows GT [LT] tags_split). simpl. lia.
  - apply (replace_scan_shrinks GT [CR; LF; SP; LT] tags_joined). simpl. lia.
  - rewrite join_after_split.
    apply (replace_scan_shrinks GT [CR; LF; SP; LT] tags_joined). simpl. lia.
Qed.

(** ** Which members are XML *)

Local Open Scope string_scope.

Lemma lower_length (s : str) : String.length (lower s) = String.length s.
Proof. induction s as [|c s IH]; simpl; [reflexivity | rewrite IH; reflexivity]. Qed.

Lemma lower_append (p e : str) : lower (p ++ e) = lower p ++ lower e.
Proof. induction p as [|c p IH]; simpl; [reflexivity | rewrite IH; reflexivity]. Qed.

Lemma lower_substring (n m : nat) (s : str) :
  lower (substring n m s) = substring n m (lower s).
Proof.
  revert n m. induction s as [|c s IH]; intros [|n] [|m]; simpl;
    try reflexivity; rewrite ?IH; reflexivity.
Qed.

Lemma append_length (p e : str) :
  String.length (p ++ e) = String.length p + String.length e.
Proof. induction p as [|c p IH]; simpl; [reflexivity | rewrite IH; reflexivity]. Qed.

Lemma substring_whole (s : str) : substring 0 (String.length s) s = s.
Proof. induction s as [|c s IH]; simpl; [reflexivity | rewrite IH; reflexivity]. Qed.

Lemma substring_past (p e : str) (m : nat) :
  substring (String.length p) m (p ++ e) = substring 0 m e.
Proof. induction p as [|c p IH]; simpl; [reflexivity | exact IH]. Qed.

Lemma substring_cut (s : str) (n : nat) :
  n <= String.length s ->
  s = substring 0 n s ++ substring n (String.length s - n) s.
Proof.
  revert n. induction s as [|c s IH]; intros [|n] H; simpl in *.
  - reflexivity.
  - lia.
  - rewrite substring_whole. reflexivity.
  - rewrite <- (IH n) by lia. reflexivity.
Qed.

(** X6: a member name counts as XML exactly when it ends in four characters
    that lower-case to [.xml]. *)
Theorem is_xml_name_spec (name : str) :
  is_xml_name name = true <->
  exists stem ext, name = stem ++ ext /\ lower ext = ".xml".
Proof.
  unfold is_xml_name, endswith. rewrite lower_length. split.
  - intros H. apply andb_true_iff in H. destruct H as [Hlen Heq].
    apply Nat.leb_le in Hlen. apply String.eqb_eq in Heq.
    change (String.length ".xml") with 4 in *.
    exists (substring 0 (String.length name - 4) name),
           (substring (String.length name - 4) 4 name).
    split.
    + pose proof (substring_cut name (String.length name - 4)) as Hc.
      replace (String.length name - (String.length name - 4)) with 4 in Hc
        by lia.
      apply Hc. lia.
    + rewrite lower_substring. exact Heq.
  - intros (stem & ext & -> & Hext).
    assert (Hlen : String.length ext = 4).
    { rewrite <- lower_length, Hext. reflexivity. }
    change (String.length ".xml") with 4.
    rewrite append_length, Hlen, lower_append, Hext.
    apply andb_true_iff. split; [apply Nat.leb_le; lia|].
    replace (String.length stem + 4 - 4) with (String.length (lower stem))
      by (rewrite lower_length; lia).
    rewrite substring_past. apply String.eqb_refl.
Qed.

Local Close Scope string_scope.

(** ** Entries that agree *)

Lemma same_members_pointwise (g h : member -> member) (ms : list member) :
  (forall m, same_member (g m) (h m)) ->
  Forall2 same_member (map g ms) (map h ms).
Proof.
  intros H. induction ms as [|m ms IH]; constructor; [apply H | exact IH].
Qed.

Lemma repack_entry_same (ct : Z) (f : bytes -> bytes) (a b : list member) :
  Forall2 same_member a b ->
  Forall2 same_member (map (repack_entry ct f) a) (map (repack_entry ct f) b).
Proof.
  induction 1 as [|x y a b (Hn & Hc & Hd) _ IH]; constructor; [|exact IH].
  unfold same_member, repack_entry. cbn [fst snd filename compress_type
    set_compress_type]. rewrite Hn, Hd. repeat split.
Qed.

Lemma decode_encode_entry (ms : list member) :
  Forall2 same_member (map decode_entry (map encode_entry ms))
                      (map decode_entry ms).
Proof.
  rewrite map_map. apply same_members_pointwise. intros m.
  unfold same_member, decode_entry, encode_entry, repack_entry.
  cbn [fst snd filename compress_type set_compress_type].
  destruct (is_xml_name (filename (fst m))); repeat split.
  apply join_after_split.
Qed.

Lemma encode_decode_entry (ms : list member) :
  Forall2 same_member (map encode_entry (map decode_entry ms))
                      (map encode_entry ms).
Proof.
  rewrite map_map. apply same_members_pointwise. intros m.
  unfold same_member, decode_entry, encode_entry, repack_entry.
  cbn [fst snd filename compress_type set_compress_type].
  destruct (is_xml_name (filename (fst m))); repeat split.
  apply split_after_join.
Qed.

Lemma encode_encode_entry (ms : list member) :
  Forall2 same_member (map encode_entry (map encode_entry ms))
                      (map encode_entry ms).
Proof.
  rewrite map_map. apply same_members_pointwise. intros m.
  unfold same_member, encode_entry, repack_entry.
  cbn [fst snd filename compress_type set_compress_type].
  destruct (is_xml_name (filename (fst m))); repeat split.
  apply (replace_scan_absent GT [LT] tags_split). apply xml_split_free.
Qed.

Lemma decode_decode_entry (ms : list member) :
  Forall2 same_member (map decode_entry (map decode_entry ms))
                      (map decode_entry ms).
Proof.
  rewrite map_map. apply same_members_pointwise. intros m.
  unfold same_member, decode_entry, repack_entry.
  cbn [fst snd filename compress_type set_compress_type].
  destruct (is_xml_name (filename (fst m))); repeat split.
  apply (replace_scan_absent GT [CR; LF; SP; LT] tags_joined).
  apply xml_join_free.
Qed.

(** ** One run of a filter, read back *)

Section Runs.
Context {L : ZipLib} (HL : ZipLaws L).

Lemma encode_run (z : bytes) (ms : list member) (cmd fn : bytes) :
  members_of z = Return ms ->
  exists msg outs ms',
    zipdocencode z cmd fn = ([Debug msg], Return outs) /\
    members_of outs = Return ms' /\
    Forall2 same_member ms' (map encode_entry ms).
Proof.
  intros H. destruct (zipdocencode_valid z ms cmd fn H) as [_ [msg Hout]].
  destruct (reread HL ZIP_STORED ZIP_STORED xml_split ms (or_introl eq_refl))
    as (ms' & Hms' & Hsame).
  exists msg. eexists. exists ms'. split; [exact Hout|]. split; assumption.
Qed.

Lemma decode_run (z : bytes) (ms : list member) (cmd fn : bytes) :
  members_of z = Return ms ->
  exists msg outs ms',
    zipdocdecode z cmd fn = ([Debug msg], Return outs) /\
    members_of outs = Return ms' /\
    Forall2 same_member ms' (map decode_entry ms).
Proof.
  intros H. destruct (zipdocdecode_valid z ms cmd fn H) as [_ [msg Hout]].
  destruct (reread HL ZIP_DEFLATED ZIP_DEFLATED xml_join ms
              (or_intror eq_refl)) as (ms' & Hms' & Hsame).
  exists msg. eexists. exists ms'. split; [exact Hout|]. split; assumption.
Qed.

End Runs.

(** ** The filters composed *)

(** X7: with a lawful archive library, decoding an encoded archive gives the
    same members as decoding the archive itself. *)
Theorem decode_absorbs_encode {L : ZipLib} (HL : ZipLaws L) (z : bytes)
    (ms : list member) (cmd fn : bytes) :
  members_of z = Return ms ->
  exists log1 stored log2 outs log3 direct,
    zipdocencode z cmd fn = (log1, Return stored) /\
    zipdocdecode stored cmd fn = (log2, Return outs) /\
    zipdocdecode z cmd fn = (log3, Return direct) /\
    same_archive outs direct.
Proof.
  intros H.
  destruct (encode_run HL z ms cmd fn H) as (m1 & stored & ms1 & R1 & M1 & S1).
  destruct (decode_run HL stored ms1 cmd fn M1)
    as (m2 & outs & ms2 & R2 & M2 & S2).
  destruct (decode_run HL z ms cmd fn H) as (m3 & direct & ms3 & R3 & M3 & S3).
  exists [Debug m1], stored, [Debug m2], outs, [Debug m3], direct.
  split; [exact R1|]. split; [exact R2|]. split; [exact R3|].
  exists ms2, ms3. split; [exact M2|]. split; [exact M3|].
  eapply same_members_trans; [exact S2|].
  eapply same_members_trans; [apply repack_entry_same; exact S1|].
  eapply same_members_trans; [apply decode_encode_entry|].
  apply same_members_sym. exact S3.
Qed.

Lemma decode_absorbs_encode_witness :
  ZipLaws Box.lib /\
  @members_of Box.lib Sample.docx
  = Return (Box.renumber 0 Sample.docx_entries) /\
  exists log1 stored log2 outs log3 direct,
    @zipdocencode Box.lib Sample.docx [] (Sample.b "report.docx")
    = (log1, Return stored) /\
    @zipdocdecode Box.lib stored [] (Sample.b "report.docx")
    = (log2, Return outs) /\
    @zipdocdecode Box.lib Sample.docx [] (Sample.b "report.docx")
    = (log3, Return direct) /\
    @same_archive Box.lib outs direct.
Proof.
  assert (H : @members_of Box.lib Sample.docx
              = Return (Box.renumber 0 Sample.docx_entries))
    by (vm_compute; reflexivity).
  split; [exact BoxFacts.laws|]. split; [exact H|].
  exact (@decode_absorbs_encode Box.lib BoxFacts.laws _ _ []
           (Sample.b "report.docx") H).
Defined.

(** X8: with a lawful archive library, encoding a decoded archive gives the
    same members as encoding the archive itself. *)
Theorem encode_absorbs_decode {L : ZipLib} (HL : ZipLaws L) (z : bytes)
    (ms : list member) (cmd fn : bytes) :
  members_of z = Return ms ->
  exists log1 zipped log2 outs log3 direct,
    zipdocdecode z cmd fn = (log1, Return zipped) /\
    zipdocencode zipped cmd fn = (log2, Return outs) /\
    zipdocencode z cmd fn = (log3, Return direct) /\
    same_archive outs direct.
Proof.
  intros H.
  destruct (decode_run HL z ms cmd fn H) as (m1 & zipped & ms1 & R1 & M1 & S1).
  destruct (encode_run HL zipped ms1 cmd fn M1)
    as (m2 & outs & ms2 & R2 & M2 & S2).
  destruct (encode_run HL z ms cmd fn H) as (m3 & direct & ms3 & R3 & M3 & S3).
  exists [Debug m1], zipped, [Debug m2], outs, [Debug m3], direct.
  split; [exact R1|]. split; [exact R2|]. split; [exact R3|].
  exists ms2, ms3. split; [exact M2|]. split; [exact M3|].
  eapply same_members_trans; [exact S2|].
  eapply same_members_trans; [apply repack_entry_same; exact S1|].
  eapply same_members_trans; [apply encode_decode_entry|].
  apply same_members_sym. exact S3.
Qed.

Lemma encode_absorbs_decode_witness :
  ZipLaws Box.lib /\
  @members_of Box.lib Sample.stored
  = Return (Box.renumber 0 Sample.stored_entries) /\
  exists log1 zipped log2 outs log3 direct,
    @zipdocdecode Box.lib Sample.stored [] (Sample.b "report.docx")
    = (log1, Return zipped) /\
    @zipdocencode Box.lib zipped [] (Sample.b "report.docx")
    = (log2, Return outs) /\
    @zipdocencode Box.lib Sample.stored [] (Sample.b "report.docx")
    = (log3, Return direct) /\
    @same_archive Box.lib outs direct.
Proof.
  assert (H : @members_of Box.lib Sample.stored
              = Return (Box.renumber 0 Sample.stored_entries))
    by (vm_compute; reflexivity).
  split; [exact BoxFacts.laws|]. split; [exact H|].
  exact (@encode_absorbs_decode Box.lib BoxFacts.laws _ _ []
           (Sample.b "report.docx") H).
Defined.

(** X9: with a lawful archive library, running a filter on its own output
    gives the same members as running it once, for the encode filter and
    for the decode filter. *)
Theorem filters_idempotent {L : ZipLib} (HL : ZipLaws L) (z : bytes)
    (ms : list member) (cmd fn : bytes) :
  members_of z = Return ms ->
  (exists log1 once log2 twice,
     zipdocencode z cmd fn = (log1, Return once) /\
     zipdocencode once cmd fn = (log2, Return twice) /\
     same_archive twice once) /\
  (exists log1 once log2 twice,
     zipdocdecode z cmd fn = (log1, Return once) /\
     zipdocdecode once cmd fn = (log2, Return twice) /\
     same_archive twice once).
Proof.
  intros H. split.
  - destruct (encode_run HL z ms cmd fn H) as (m1 & once & ms1 & R1 & M1 & S1).
    destruct (encode_run HL once ms1 cmd fn M1)
      as (m2 & twice & ms2 & R2 & M2 & S2).
    exists [Debug m1], once, [Debug m2], twice.
    split; [exact R1|]. split; [exact R2|].
    exists ms2, ms1. split; [exact M2|]. split; [exact M1|].
    eapply same_members_trans; [exact S2|].
    eapply same_members_trans; [apply repack_entry_same; exact S1|].
    eapply same_members_trans; [apply encode_encode_entry|].
    apply same_members_sym. exact S1.
  - destruct (decode_run HL z ms cmd fn H) as (m1 & once & ms1 & R1 & M1 & S1).
    destruct (decode_run HL once ms1 cmd fn M1)
      as (m2 & twice & ms2 & R2 & M2 & S2).
    exists [Debug m1], once, [Debug m2], twice.
    split; [exact R1|]. split; [exact R2|].
    exists ms2, ms1. split; [exact M2|]. split; [exact M1|].
    eapply same_members_trans; [exact S2|].
    eapply same_members_trans; [apply repack_entry_same; exact S1|].
    eapply same_members_trans; [apply decode_decode_entry|].
    apply same_members_sym. exact S1.
Qed.

Lemma filters_idempotent_witness :
  ZipLaws Box.lib /\
  @members_of Box.lib Sample.docx
  = Return (Box.renumber 0 Sample.docx_entries) /\
  exists log1 once log2 twice,
    @zipdocencode Box.lib Sample.docx [] (Sample.b "report.docx")
    = (log1, Return once) /\
    @zipdocencode Box.lib once [] (Sample.b "report.docx")
    = (log2, Return twice) /\
    @same_archive Box.lib twice once.
Proof.
  assert (H : @members_of Box.lib Sample.docx
              = Return (Box.renumber 0 Sample.docx_entries))
    by (vm_compute; reflexivity).
  split; [exact BoxFacts.laws|]. split; [exact H|].
  exact (proj1 (@filters_idempotent Box.lib BoxFacts.laws _ _ []
                  (Sample.b "report.docx") H)).
Defined.

Lemma free_xml_data (pat : bytes) (f g : bytes -> bytes) (c1 c2 : Z)
    (ms : list member) :
  (forall d, occurs pat d = false -> g (f d) = d) ->
  Forall (fun m => is_xml_name (member_name m) = true ->
                   ~ (exists l r, member_data m = l ++ pat ++ r)) ms ->
  map member_data (map (repack_entry c2 g) (map (repack_entry c1 f) ms))
  = map member_data ms.
Proof.
  intros Hgf H. rewrite !map_map.
  induction H as [|m ms Hm _ IH]; [reflexivity|].
  cbn [map]. rewrite IH. f_equal.
  unfold repack_entry, member_data, member_name in *.
  cbn [fst snd filename set_compress_type].
  destruct (is_xml_name (filename (fst m))); [|reflexivity].
  apply Hgf. apply absent_occurs. apply Hm. reflexivity.
Qed.

(** X10: with a lawful archive library, if no XML member of the archive
    holds [>\r\n <], then decoding the encoded archive gives back every
    member, XML or not, under its name, in order, with its content byte for
    byte. *)
Theorem document_round_trip {L : ZipLib} (HL : ZipLaws L) (z : bytes)
    (ms : list member) (cmd fn : bytes) :
  members_of z = Return ms ->
  Forall (fun m => is_xml_name (member_name m) = true ->
                   ~ (exists l r, member_data m = l ++ tags_split ++ r)) ms ->
  exists log1 stored log2 outs ms',
    zipdocencode z cmd fn = (log1, Return stored) /\
    zipdocdecode stored cmd fn = (log2, Return outs) /\
    members_of outs = Return ms' /\
    map member_name ms' = map member_name ms /\
    map member_data ms' = map member_data ms.
Proof.
  intros H Hfree.
  destruct (encode_run HL z ms cmd fn H) as (m1 & stored & ms1 & R1 & M1 & S1).
  destruct (decode_run HL stored ms1 cmd fn M1)
    as (m2 & outs & ms2 & R2 & M2 & S2).
  exists [Debug m1], stored, [Debug m2], outs, ms2.
  split; [exact R1|]. split; [exact R2|]. split; [exact M2|].
  assert (S : Forall2 same_member ms2
                (map decode_entry (map encode_entry ms))).
  { eapply same_members_trans; [exact S2|].
    apply repack_entry_same. exact S1. }
  split.
  - rewrite (same_member_names _ _ S).
    unfold decode_entry, encode_entry. rewrite !repack_entry_name.
    reflexivity.
  - rewrite (same_member_data _ _ S).
    apply (free_xml_data tags_split); [exact join_split_absent | exact Hfree].
Qed.

Lemma document_round_trip_witness :
  ZipLaws Box.lib /\
  @members_of Box.lib Sample.docx
  = Return (Box.renumber 0 Sample.docx_entries) /\
  exists log1 stored log2 outs ms',
    @zipdocencode Box.lib Sample.docx [] (Sample.b "report.docx")
    = (log1, Return stored) /\
    @zipdocdecode Box.lib stored [] (Sample.b "report.docx")
    = (log2, Return outs) /\
    @members_of Box.lib outs = Return ms' /\
    map member_name ms'
    = ["word/document.xml"; "docProps/thumbnail.jpeg"]%string /\
    map member_data ms' = [Sample.doc_joined; Sample.thumbnail].
Proof.
  assert (H : @members_of Box.lib Sample.docx
              = Return (Box.renumber 0 Sample.docx_entries))
    by (vm_compute; reflexivity).
  assert (Hf : Forall (fun m => is_xml_name (member_name m) = true ->
                 ~ (exists l r, member_data m = l ++ tags_split ++ r))
                 (Box.renumber 0 Sample.docx_entries)).
  { repeat constructor; intros _; apply occurs_absent; reflexivity. }
  split; [exact BoxFacts.laws|]. split; [exact H|].
  exact (@document_round_trip Box.lib BoxFacts.laws _ _ []
           (Sample.b "report.docx") H Hf).
Defined.

(** X11: with a lawful archive library, if no XML member of the archive
    holds [><], as is the case for every archive the encode filter has
    written, then encoding the decoded archive gives back every member under
    its name, in order, with its content byte for byte. *)
Theorem stored_round_trip {L : ZipLib} (HL : ZipLaws L) (s : bytes)
    (ms : list member) (cmd fn : bytes) :
  members_of s = Return ms ->
  Forall (fun m => is_xml_name (member_name m) = true ->
                   ~ (exists l r, member_data m = l ++ tags_joined ++ r)) ms ->
  exists log1 zipped log2 outs ms',
    zipdocdecode s cmd fn = (log1, Return zipped) /\
    zipdocencode zipped cmd fn = (log2, Return outs) /\
    members_of outs = Return ms' /\
    map member_name ms' = map member_name ms /\
    map member_data ms' = map member_data ms.
Proof.
  intros H Hfree.
  destruct (decode_run HL s ms cmd fn H) as (m1 & zipped & ms1 & R1 & M1 & S1).
  destruct (encode_run HL zipped ms1 cmd fn M1)
    as (m2 & outs & ms2 & R2 & M2 & S2).
  exists [Debug m1], zipped, [Debug m2], outs, ms2.
  split; [exact R1|]. split; [exact R2|]. split; [exact M2|].
  assert (S : Forall2 same_member ms2
                (map encode_entry (map decode_entry ms))).
  { eapply same_members_trans; [exact S2|].
    apply repack_entry_same. exact S1. }
  split.
  - rewrite (same_member_names _ _ S).
    unfold decode_entry, encode_entry. rewrite !repack_entry_name.
    reflexivity.
  - rewrite (same_member_data _ _ S).
    apply (free_xml_data tags_joined); [exact split_join_absent | exact Hfree].
Qed.

Lemma stored_round_trip_witness :
  ZipLaws Box.lib /\
  @members_of Box.lib Sample.stored
  = Return (Box.renumber 0 Sample.stored_entries) /\
  exists log1 zipped log2 outs ms',
    @zipdocdecode Box.lib Sample.stored [] (Sample.b "report.docx")
    = (log1, Return zipped) /\
    @zipdocencode Box.lib zipped [] (Sample.b "report.docx")
    = (log2, Return outs) /\
    @members_of Box.lib outs = Return ms' /\
    map member_name ms'
    = ["word/document.xml"; "docProps/thumbnail.jpeg"]%string /\
    map member_data ms' = [Sample.doc_split; Sample.thumbnail].
Proof.
  assert (H : @members_of Box.lib Sample.stored
              = Return (Box.renumber 0 Sample.stored_entries))
    by (vm_compute; reflexivity).
  assert (Hf : Forall (fun m => is_xml_name (member_name m) = true ->
                 ~ (exists l r, member_data m = l ++ tags_joined ++ r))
                 (Box.renumber 0 Sample.stored_entries)).
  { constructor; [intros _; apply occurs_absent; reflexivity|].
    constructor; [intros Hx; discriminate Hx|constructor]. }
  split; [exact BoxFacts.laws|]. split; [exact H|].
  exact (@stored_round_trip Box.lib BoxFacts.laws _ _ []
           (Sample.b "report.docx") H Hf).
Defined.

(** ** Failures and messages *)

(** X12: when the archive cannot be read for a reason other than
    [BadZipfile] at opening, the exception reaches the caller of either
    filter, nothing is returned and [ui] gets no line.  This includes a
    [BadZipfile] raised while a member is read: only the opening is inside
    the [try]. *)
Theorem failure_propagates {L : ZipLib} (s : bytes) (e : exn)
    (cmd fn : bytes) :
  members_of s = Raise e ->
  zf_infolist s <> Raise BadZipfile ->
  zipdocencode s cmd fn = ([], Raise e) /\
  zipdocdecode s cmd fn = ([], Raise e).
Proof.
  unfold members_of, zipdocencode, zipdocdecode.
  destruct (zf_infolist s) as [infos|e0]; cbn [bind]; intros H Hopen.
  - rewrite encode_loop_spec, decode_loop_spec, H. split; reflexivity.
  - injection H as ->. destruct e; [congruence| |]; split; reflexivity.
Qed.

Lemma failure_propagates_witness :
  @members_of Box.lib Sample.odd = Raise ReadError /\
  @zf_infolist Box.lib Sample.odd <> Raise BadZipfile /\
  @zipdocencode Box.lib Sample.odd [] (Sample.b "odd.zip")
  = ([], Raise ReadError) /\
  @zipdocdecode Box.lib Sample.odd [] (Sample.b "odd.zip")
  = ([], Raise ReadError).
Proof.
  assert (H : @members_of Box.lib Sample.odd = Raise ReadError)
    by (vm_compute; reflexivity).
  assert (Ho : @zf_infolist Box.lib Sample.odd <> Raise BadZipfile)
    by (vm_compute; discriminate).
  split; [exact H|]. split; [exact Ho|].
  exact (@failure_propagates Box.lib Sample.odd ReadError []
           (Sample.b "odd.zip") H Ho).
Defined.

(** X13: on an archive all of whose members can be read, each filter hands
    [ui] exactly one line, through [ui.debug], and the line names the file:
    [zipdoc: Encoded <filename>] or [zipdoc: Decoded <filename>]. *)
Theorem success_is_logged {L : ZipLib} (z : bytes) (ms : list member)
    (cmd fn : bytes) :
  members_of z = Return ms ->
  fst (zipdocencode z cmd fn)
  = [Debug (list_byte_of_string "zipdoc: Encoded " ++ fn ++ [LF])] /\
  fst (zipdocdecode z cmd fn)
  = [Debug (list_byte_of_string "zipdoc: Decoded " ++ fn ++ [LF])].
Proof.
  unfold members_of, zipdocencode, zipdocdecode.
  destruct (zf_infolist z) as [infos|e]; cbn [bind]; [|discriminate].
  intros H. rewrite encode_loop_spec, decode_loop_spec, H.
  split; reflexivity.
Qed.

Lemma success_is_logged_witness :
  @members_of Box.lib Sample.docx
  = Return (Box.renumber 0 Sample.docx_entries) /\
  fst (@zipdocencode Box.lib Sample.docx [] (Sample.b "a%sb.docx"))
  = [Debug (Sample.b "zipdoc: Encoded a%sb.docx" ++ [LF])] /\
  fst (@zipdocdecode Box.lib Sample.docx [] (Sample.b "a%sb.docx"))
  = [Debug (Sample.b "zipdoc: Decoded a%sb.docx" ++ [LF])].
Proof.
  assert (H : @members_of Box.lib Sample.docx
              = Return (Box.renumber 0 Sample.docx_entries))
    by (vm_compute; reflexivity).
  split; [exact H|].
  exact (@success_is_logged Box.lib _ _ [] (Sample.b "a%sb.docx") H).
Defined.

(** X14: on a buffer that the archive library rejects with [BadZipfile],
    the one line the decode filter hands to [ui.note] names the file between
    quotes: [zipdoc: Skipped decoding '<filename>' due to bad ZIP
    archive. ...]; the file name is copied as it is. *)
Theorem decode_skip_is_noted {L : ZipLib} (b cmd fn : bytes) :
  zf_infolist b = Raise BadZipfile ->
  fst (zipdocdecode b cmd fn)
  = [Note (list_byte_of_string "zipdoc: Skipped decoding '" ++ fn
           ++ list_byte_of_string
                ("' due to bad ZIP archive. The file is not a ZIP (might be a"
                 ++ " link) or the archive is broken.")
           ++ [LF])].
Proof.
  intros H. unfold zipdocdecode. rewrite H. reflexivity.
Qed.

Lemma decode_skip_is_noted_witness :
  @zf_infolist Box.lib Sample.link = Raise BadZipfile /\
  fst (@zipdocdecode Box.lib Sample.link [] (Sample.b "a%sb.docx"))
  = [Note (Sample.b ("zipdoc: Skipped decoding 'a%sb.docx' due to bad ZIP"
                     ++ " archive. The file is not a ZIP (might be a link)"
                     ++ " or the archive is broken.") ++ [LF])].
Proof.
  assert (H : @zf_infolist Box.lib Sample.link = Raise BadZipfile)
    by reflexivity.
  split; [exact H|].
  exact (@decode_skip_is_noted Box.lib Sample.link [] (Sample.b "a%sb.docx") H).
Defined.

(** ** Registration *)

Lemma bytes_eqb_eq (a b : bytes) : bytes_eqb a b = true <-> a = b.
Proof.
  revert b. induction a as [|x a IH]; intros [|y b]; simpl;
    try (split; [discriminate | discriminate]); [tauto|].
  rewrite andb_true_iff, IH. split.
  - intros [Hxy ->]. apply byte_dec_bl in Hxy. subst. reflexivity.
  - intros H. injection H as -> ->. split; [|reflexivity].
    apply byte_dec_lb. reflexivity.
Qed.

Lemma bytes_eqb_neq (a b : bytes) : a <> b -> bytes_eqb a b = false.
Proof.
  intros H. destruct (bytes_eqb a b) eqn:E; [|reflexivity].
  apply bytes_eqb_eq in E. contradiction.
Qed.

Section Dict.
Context {V : Type}.

Lemma dict_get_set_same (d : dict V) (k : bytes) (v : V) :
  dict_get (dict_set d k v) k = Some v.
Proof.
  induction d as [|[k' v'] d IH]; simpl.
  - rewrite (proj2 (bytes_eqb_eq k k) eq_refl). reflexivity.
  - destruct (bytes_eqb k' k) eqn:E; simpl; rewrite E; [reflexivity|exact IH].
Qed.

Lemma dict_get_set_other (d : dict V) (k k' : bytes) (v : V) :
  k <> k' -> dict_get (dict_set d k v) k' = dict_get d k'.
Proof.
  intros H. induction d as [|[k0 v0] d IH]; simpl.
  - rewrite (bytes_eqb_neq _ _ H). reflexivity.
  - destruct (bytes_eqb k0 k) eqn:E; simpl.
    + apply bytes_eqb_eq in E. subst k0.
      rewrite (bytes_eqb_neq _ _ H). reflexivity.
    + rewrite IH. reflexivity.
Qed.

Lemma dict_set_known (d : dict V) (k : bytes) (v : V) :
  dict_get d k = Some v -> dict_set d k v = d.
Proof.
  induction d as [|[k0 v0] d IH]; simpl; [discriminate|].
  destruct (bytes_eqb k0 k) eqn:E.
  - intros H. injection H as ->. reflexivity.
  - intros H. rewrite (IH H). reflexivity.
Qed.

End Dict.

Lemma reposetup_on_local {L : ZipLib} (ui : list event)
    (repo : localrepo) :
  local repo = true ->
  dict_get (datafilters (reposetup ui repo))
           (list_byte_of_string "zipdocencode") = Some zipdocencode /\
  dict_get (datafilters (reposetup ui repo))
           (list_byte_of_string "zipdocdecode") = Some zipdocdecode /\
  (forall name,
     name <> list_byte_of_string "zipdocencode" ->
     name <> list_byte_of_string "zipdocdecode" ->
     dict_get (datafilters (reposetup ui repo)) name
     = dict_get (datafilters repo) name) /\
  local (reposetup ui repo) = true.
Proof.
  intros H. unfold reposetup. rewrite H.
  cbn [negb _filters fold_left adddatafilter fst snd datafilters local].
  split; [|split; [|split]].
  - rewrite dict_get_set_other by (vm_compute; discriminate).
    apply dict_get_set_same.
  - apply dict_get_set_same.
  - intros name H1 H2.
    rewrite !dict_get_set_other by congruence. reflexivity.
  - exact H.
Qed.

(** X15: on a local repository [reposetup] leaves both filters registered
    under their names, [zipdocencode] and [zipdocdecode], keeps every filter
    that was registered under another name, and the repository stays
    local. *)
Theorem reposetup_registers {L : ZipLib} (ui : list event)
    (repo : localrepo) :
  local repo = true ->
  dict_get (datafilters (reposetup ui repo))
           (list_byte_of_string "zipdocencode") = Some zipdocencode /\
  dict_get (datafilters (reposetup ui repo))
           (list_byte_of_string "zipdocdecode") = Some zipdocdecode /\
  (forall name,
     name <> list_byte_of_string "zipdocencode" ->
     name <> list_byte_of_string "zipdocdecode" ->
     dict_get (datafilters (reposetup ui repo)) name
     = dict_get (datafilters repo) name) /\
  local (reposetup ui repo) = true.
Proof. exact (reposetup_on_local ui repo). Qed.

Lemma reposetup_registers_witness :
  local Sample.repo = true /\
  dict_get (datafilters (@reposetup Box.lib [] Sample.repo))
           (list_byte_of_string "zipdocencode")
  = Some (@zipdocencode Box.lib) /\
  dict_get (datafilters (@reposetup Box.lib [] Sample.repo))
           (list_byte_of_string "cleverencode:")
  = Some (@zipdocdecode Box.lib).
Proof.
  assert (H : local Sample.repo = true) by reflexivity.
  split; [exact H|].
  destruct (@reposetup_registers Box.lib [] Sample.repo H)
    as (He & _ & Hother & _).
  split; [exact He|].
  rewrite Hother by (vm_compute; discriminate). reflexivity.
Defined.

(** X16: [reposetup] leaves a repository that is not local exactly as it
    was, and calling it a second time changes nothing any more. *)
Theorem reposetup_idempotent {L : ZipLib} (ui : list event)
    (repo : localrepo) :
  (local repo = false -> reposetup ui repo = repo) /\
  reposetup ui (reposetup ui repo) = reposetup ui repo.
Proof.
  split.
  - intros H. unfold reposetup. rewrite H. reflexivity.
  - destruct (local repo) eqn:H.
    + destruct (reposetup_on_local ui repo H) as (He & Hd & _ & Hl).
      unfold reposetup at 1. rewrite Hl.
      cbn [negb _filters fold_left adddatafilter fst snd datafilters local].
      unfold adddatafilter. cbn [datafilters local].
      rewrite (dict_set_known _ _ _ He), (dict_set_known _ _ _ Hd).
      destruct (reposetup ui repo) as [l d]. reflexivity.
    + unfold reposetup. rewrite H. cbn [negb]. rewrite H. reflexivity.
Qed.

(** ** What a written archive looks like *)

Lemma written_xml_free (pat : bytes) (ct : Z) (f : bytes -> bytes)
    (ms ms' : list member) :
  (forall d, occurs pat (f d) = false) ->
  Forall2 same_member ms' (map (repack_entry ct f) ms) ->
  Forall (fun m => is_xml_name (member_name m) = true ->
                   ~ (exists l r, member_data m = l ++ pat ++ r)) ms'.
Proof.
  intros Hf. revert ms'. induction ms as [|m ms IH]; intros ms' H;
    inversion H as [|m' ? ms'' ? (Hn & _ & Hd) Hrest]; subst;
    constructor; [|apply IH; exact Hrest].
  unfold member_name, member_data. rewrite Hn, Hd.
  unfold repack_entry. cbn [fst snd filename set_compress_type].
  intros Hx. rewrite Hx. apply occurs_absent. apply Hf.
Qed.

(** X17: with a lawful archive library, no XML member of an archive written
    by the encode filter holds [><], and no XML member of an archive written
    by the decode filter holds [>\r\n <]. *)
Theorem written_archives_are_normal {L : ZipLib} (HL : ZipLaws L)
    (z : bytes) (ms : list member) (cmd fn : bytes) :
  members_of z = Return ms ->
  (exists log outs ms',
     zipdocencode z cmd fn = (log, Return outs) /\
     members_of outs = Return ms' /\
     Forall (fun m => is_xml_name (member_name m) = true ->
                      ~ (exists l r, member_data m = l ++ tags_joined ++ r))
            ms') /\
  (exists log outs ms',
     zipdocdecode z cmd fn = (log, Return outs) /\
     members_of outs = Return ms' /\
     Forall (fun m => is_xml_name (member_name m) = true ->
                      ~ (exists l r, member_data m = l ++ tags_split ++ r))
            ms').
Proof.
  intros H. split.
  - destruct (encode_run HL z ms cmd fn H) as (m1 & outs & ms' & R & M & S).
    exists [Debug m1], outs, ms'. split; [exact R|]. split; [exact M|].
    apply (written_xml_free tags_joined ZIP_STORED xml_split ms ms');
      [exact xml_split_free | exact S].
  - destruct (decode_run HL z ms cmd fn H) as (m1 & outs & ms' & R & M & S).
    exists [Debug m1], outs, ms'. split; [exact R|]. split; [exact M|].
    apply (written_xml_free tags_split ZIP_DEFLATED xml_join ms ms');
      [exact xml_join_free | exact S].
Qed.

Lemma written_archives_are_normal_witness :
  ZipLaws Box.lib /\
  @members_of Box.lib Sample.docx
  = Return (Box.renumber 0 Sample.docx_entries) /\
  exists log outs ms',
    @zipdocencode Box.lib Sample.docx [] (Sample.b "report.docx")
    = (log, Return outs) /\
    @members_of Box.lib outs = Return ms' /\
    Forall (fun m => is_xml_name (member_name m) = true ->
                     ~ (exists l r, member_data m = l ++ tags_joined ++ r))
           ms'.
Proof.
  assert (H : @members_of Box.lib Sample.docx
              = Return (Box.renumber 0 Sample.docx_entries))
    by (vm_compute; reflexivity).
  split; [exact BoxFacts.laws|]. split; [exact H|].
  exact (proj1 (@written_archives_are_normal Box.lib BoxFacts.laws _ _ []
                  (Sample.b "report.docx") H)).
Defined.

Lemma substitution_fixed_points_witness :
  xml_split Sample.doc_split = Sample.doc_split /\
  xml_join Sample.doc_joined = Sample.doc_joined.
Proof.
  split.
  - apply (proj2 (proj1 (substitution_fixed_points Sample.doc_split))).
    apply occurs_absent. reflexivity.
  - apply (proj2 (proj2 (substitution_fixed_points Sample.doc_joined))).
    apply occurs_absent. reflexivity.
Defined.

Lemma is_xml_name_spec_witness :
  is_xml_name "word/Document.XML"%string = true.
Proof.
  apply (proj2 (is_xml_name_spec "word/Document.XML"%string)).
  exists "word/Document"%string, ".XML"%string. split; reflexivity.
Defined.

Lemma reposetup_idempotent_witness :
  @reposetup Box.lib [] (mkRepo false (datafilters Sample.repo))
  = mkRepo false (datafilters Sample.repo).
Proof.
  apply (proj1 (@reposetup_idempotent Box.lib []
                  (mkRepo false (datafilters Sample.repo)))).
  reflexivity.
Defined.
